(** * shelf_track.py: book and author inventory over two SQLite tables

    The program is a menu of interactive workflows.  Each workflow reads
    lines with [input()], validates them, queries the two tables and ends
    with at most one mutating statement followed by a commit.

    The embedding is shallow: a workflow is a function from the store and
    the lines still to be typed to a [result]: how control left the
    function, the store, what was printed and the lines not yet read.
    Every [while True] loop of the source reads at least one line per
    iteration, so the loops are structural recursions on the pending
    input. *)

From Stdlib Require Import ZArith NArith List String Bool Lia.
Import ListNotations.

Set Implicit Arguments.

(** ** Python [str]: a sequence of Unicode code points *)

Module PyStr.

Definition char := N.
Definition pystr := list char.

(** A program literal, written as a Rocq string of ASCII characters. *)
Definition str (s : string) : pystr :=
  map Ascii.N_of_ascii (list_ascii_of_string s).

Fixpoint eqb (a b : pystr) : bool :=
  match a, b with
  | [], [] => true
  | x :: a', y :: b' => N.eqb x y && eqb a' b'
  | _, _ => false
  end.

(** [not s] on a string: true exactly for the empty string. *)
Definition is_empty (s : pystr) : bool :=
  match s with [] => true | _ :: _ => false end.

Definition len (s : pystr) : Z := Z.of_nat (List.length s).

Definition between (lo hi c : N) : bool := (N.leb lo c && N.leb c hi)%bool.

(** The whitespace set of [str.strip()] and [str.isspace()]. *)
Definition isspace (c : char) : bool :=
  (between 0x09 0x0D c || between 0x1C 0x20 c || N.eqb c 0x85 || N.eqb c 0xA0
   || N.eqb c 0x1680 || between 0x2000 0x200A c || N.eqb c 0x2028
   || N.eqb c 0x2029 || N.eqb c 0x202F || N.eqb c 0x205F
   || N.eqb c 0x3000)%bool.

Fixpoint lstrip (s : pystr) : pystr :=
  match s with
  | [] => []
  | c :: s' => if isspace c then lstrip s' else s
  end.

Definition strip (s : pystr) : pystr := rev (lstrip (rev (lstrip s))).

(** Case and digit tables.  They are exact on Basic Latin and the Latin-1
    Supplement (U+0000..U+00FF); a code point above U+00FF is taken as
    caseless and as no digit. *)
Definition is_ascii (c : char) : bool := N.ltb c 0x80.

Definition lower_char (c : char) : char :=
  if between 0x41 0x5A c then (c + 32)%N
  else if (between 0xC0 0xDE c && negb (N.eqb c 0xD7))%bool then (c + 32)%N
  else c.

Definition lower (s : pystr) : pystr := map lower_char s.

(** [str.isdigit()] on one character: the decimal digits and the
    superscripts U+00B2, U+00B3, U+00B9. *)
Definition isdigit_char (c : char) : bool :=
  (between 0x30 0x39 c || N.eqb c 0xB2 || N.eqb c 0xB3 || N.eqb c 0xB9)%bool.

Definition isdigit (s : pystr) : bool :=
  (negb (is_empty s) && forallb isdigit_char s)%bool.

(** The characters [int()] reads as decimal digits. *)
Definition digit_val (c : char) : option Z :=
  if between 0x30 0x39 c then Some (Z.of_N c - 48)%Z else None.

(** Digits after a first digit: [digit] or [_ digit], repeated. *)
Fixpoint int_digits (acc : Z) (s : pystr) : option Z :=
  match s with
  | [] => Some acc
  | c :: s' =>
    match digit_val c with
    | Some d => int_digits (10 * acc + d)%Z s'
    | None =>
      if N.eqb c 0x5F then
        match s' with
        | d :: s'' =>
          match digit_val d with
          | Some v => int_digits (10 * acc + v)%Z s''
          | None => None
          end
        | [] => None
        end
      else None
    end
  end.

Definition int_unsigned (s : pystr) : option Z :=
  match s with
  | c :: s' =>
    match digit_val c with
    | Some d => int_digits d s'
    | None => None
    end
  | [] => None
  end.

(** [int(s)] in base 10; [None] stands for [ValueError]. *)
Definition int (s : pystr) : option Z :=
  match strip s with
  | c :: s' =>
    if N.eqb c 0x2B then int_unsigned s'
    else if N.eqb c 0x2D then option_map Z.opp (int_unsigned s')
    else int_unsigned (c :: s')
  | [] => None
  end.

(** [str.title()]: a character that follows a cased character is
    lowercased, any other character is titlecased. *)
Definition is_cased (c : char) : bool :=
  (between 0x41 0x5A c || between 0x61 0x7A c
   || (between 0xC0 0xFF c && negb (N.eqb c 0xD7) && negb (N.eqb c 0xF7))
   || N.eqb c 0xAA || N.eqb c 0xB5 || N.eqb c 0xBA)%bool.

Definition title_char (c : char) : pystr :=
  if between 0x61 0x7A c then [(c - 32)%N]
  else if (between 0xE0 0xFE c && negb (N.eqb c 0xF7))%bool then [(c - 32)%N]
  else if N.eqb c 0xFF then [0x178%N]
  else if N.eqb c 0xB5 then [0x39C%N]
  else if N.eqb c 0xDF then [0x53%N; 0x73%N]
  else [c].

Fixpoint title_from (previous_is_cased : bool) (s : pystr) : pystr :=
  match s with
  | [] => []
  | c :: s' =>
    (if previous_is_cased then [lower_char c] else title_char c)
      ++ title_from (is_cased c) s'
  end.

Definition title (s : pystr) : pystr := title_from false s.

End PyStr.

Import PyStr.

(** ** The two tables and the SQL statements the program issues *)

(** A row of [book(id INTEGER PRIMARY KEY, title TEXT, authorID INTEGER,
    qty INTEGER)]. *)
Record Book := mkBook {
  b_id : Z;
  b_title : pystr;
  b_authorID : Z;
  b_qty : Z
}.

(** A row of [author(id INTEGER PRIMARY KEY, name TEXT, country TEXT)]. *)
Record Author := mkAuthor {
  a_id : Z;
  a_name : pystr;
  a_country : pystr
}.

(** The rows of each table in the order a table scan visits them. *)
Record store := mkStore {
  book : list Book;
  author : list Author
}.

Module Sql.

(** [cursor.fetchone()] and the truth value the program takes of it. *)
Definition fetchone (A : Type) (rows : list A) : option A := hd_error rows.

Definition found (A : Type) (row : option A) : bool :=
  match row with Some _ => true | None => false end.

(** A table keyed by an INTEGER PRIMARY KEY is scanned in key order. *)
Fixpoint put_row (A : Type) (key : A -> Z) (r : A) (t : list A) : list A :=
  match t with
  | [] => [r]
  | x :: t' => if (key r <? key x)%Z then r :: t else x :: put_row key r t'
  end.

(** INSERT; [None] stands for the primary-key violation
    ([sqlite3.IntegrityError]). *)
Definition insert (A : Type) (key : A -> Z) (r : A) (t : list A)
  : option (list A) :=
  if existsb (fun x => (key x =? key r)%Z) t then None
  else Some (put_row key r t).

(** [executemany] of an INSERT: row after row, stopping at the first
    violation. *)
Fixpoint insert_many (A : Type) (key : A -> Z) (rows : list A) (t : list A)
  : option (list A) :=
  match rows with
  | [] => Some t
  | r :: rows' =>
    match insert key r t with
    | Some t' => insert_many key rows' t'
    | None => None
    end
  end.

(** SELECT * FROM book WHERE id = ? *)
Definition book_by_id (st : store) (k : Z) : list Book :=
  filter (fun b => (b_id b =? k)%Z) (book st).

(** SELECT * FROM author WHERE id = ? *)
Definition author_by_id (st : store) (k : Z) : list Author :=
  filter (fun a => (a_id a =? k)%Z) (author st).

(** SELECT * FROM book WHERE authorID = ? *)
Definition books_by_author (st : store) (k : Z) : list Book :=
  filter (fun b => (b_authorID b =? k)%Z) (book st).

(** The comparison of LIKE: letters of ASCII compare without case. *)
Definition fold_char (c : char) : char :=
  if between 0x41 0x5A c then (c + 32)%N else c.

(** [text LIKE pattern]: [%] stands for any run of characters, [_] for
    exactly one character.  The values are taken to hold no U+0000 and
    the pattern to stay within the length the engine accepts. *)
Fixpoint like (pattern text : pystr) : bool :=
  match pattern with
  | [] => is_empty text
  | c :: pattern' =>
    if N.eqb c 0x25 then
      (fix any_run (t : pystr) : bool :=
         (like pattern' t
          || match t with [] => false | _ :: t' => any_run t' end)%bool) text
    else
      match text with
      | [] => false
      | d :: text' =>
        ((N.eqb c 0x5F || N.eqb (fold_char c) (fold_char d))
         && like pattern' text')%bool
      end
  end.

(** SELECT * FROM book WHERE title LIKE ?, with the parameter
    [f'%{title}%']. *)
Definition books_like (st : store) (q : pystr) : list Book :=
  filter (fun b => like ([0x25%N] ++ q ++ [0x25%N]) (b_title b)) (book st).

(** UPDATE book SET qty = ? WHERE id = ? *)
Definition set_qty (new_qty k : Z) (st : store) : store :=
  mkStore
    (map (fun b => if (b_id b =? k)%Z
                   then mkBook (b_id b) (b_title b) (b_authorID b) new_qty
                   else b) (book st))
    (author st).

(** UPDATE book SET title = ? WHERE id = ? *)
Definition set_title (new_title : pystr) (k : Z) (st : store) : store :=
  mkStore
    (map (fun b => if (b_id b =? k)%Z
                   then mkBook (b_id b) new_title (b_authorID b) (b_qty b)
                   else b) (book st))
    (author st).

(** UPDATE book SET authorID = ? WHERE id = ? *)
Definition set_authorID (new_author_id k : Z) (st : store) : store :=
  mkStore
    (map (fun b => if (b_id b =? k)%Z
                   then mkBook (b_id b) (b_title b) new_author_id (b_qty b)
                   else b) (book st))
    (author st).

(** UPDATE author SET name = ?, country = ? WHERE id = ? *)
Definition set_author (new_name new_country : pystr) (k : Z) (st : store)
  : store :=
  mkStore (book st)
    (map (fun a => if (a_id a =? k)%Z
                   then mkAuthor (a_id a) new_name new_country
                   else a) (author st)).

(** DELETE FROM book WHERE id = ? *)
Definition delete_book (k : Z) (st : store) : store :=
  mkStore (filter (fun b => negb (b_id b =? k)%Z) (book st)) (author st).

(** DELETE FROM author WHERE id = ? *)
Definition delete_author (k : Z) (st : store) : store :=
  mkStore (book st) (filter (fun a => negb (a_id a =? k)%Z) (author st)).

(** SELECT book.title, author.name, author.country FROM book INNER JOIN
    author ON book.authorID = author.id *)
Definition joined (st : store) : list (pystr * pystr * pystr) :=
  flat_map (fun b =>
    map (fun a => (b_title b, a_name a, a_country a))
        (author_by_id st (b_authorID b))) (book st).

(** The largest value of an INTEGER column; binding a larger Python int
    raises [OverflowError]. *)
Definition max_integer : Z := 9223372036854775807.

End Sql.

(** ** Running a workflow *)

(** What the terminal shows.  A fixed message is kept as the source writes
    it (an escape such as [\n] stays two characters); an f-string over a
    row is an event that carries the row. *)
Inductive event :=
| Prompt (text : string)
| Print (text : string)
| PrintBook (heading : string) (row : Book)
| PrintBookLine (row : Book)
| PrintAuthor (heading : string) (row : Author)
| PrintCurrentName (name : pystr)
| PrintCurrentCountry (country : pystr)
| PrintDetails (title name country : pystr).

(** The exceptions that nothing in the program catches, and [ValueError]
    where it is raised outside a [try]. *)
Inductive exn := EOFError | ValueError | IntegrityError | OverflowError.

(** How a block of statements ends: it falls through with a value, the
    function executes [return], or an exception leaves it. *)
Inductive flow (A : Type) :=
| Next (a : A)
| Return
| Raise (e : exn).

Arguments Return {A}.
Arguments Raise {A} e.

Record result (A : Type) := mkResult {
  ctl : flow A;
  db : store;
  out : list event;
  pending : list pystr
}.

(** A block of statements: from the store and the lines still to come. *)
Definition M (A : Type) := store -> list pystr -> result A.

Definition emit (A : Type) (e : event) (r : result A) : result A :=
  mkResult (ctl r) (db r) (e :: out r) (pending r).

Definition say (A : Type) (text : string) (r : result A) : result A :=
  emit (Print text) r.

Definition ret (A : Type) (a : A) : M A :=
  fun st ins => mkResult (Next a) st [] ins.

Definition stop (A : Type) : M A :=
  fun st ins => mkResult Return st [] ins.

Definition raise (A : Type) (e : exn) : M A :=
  fun st ins => mkResult (Raise e) st [] ins.

Definition bind (A B : Type) (m : M A) (k : A -> M B) : M B :=
  fun st ins =>
    let r := m st ins in
    match ctl r with
    | Next a =>
      let r' := k a (db r) (pending r) in
      mkResult (ctl r') (db r') (out r ++ out r') (pending r')
    | Return => mkResult Return (db r) (out r) (pending r)
    | Raise e => mkResult (Raise e) (db r) (out r) (pending r)
    end.

Declare Scope shelf_scope.
Delimit Scope shelf_scope with shelf.
Notation "x <- m ;; k" := (bind m (fun x => k))
  (at level 61, m at next level, right associativity) : shelf_scope.
Notation "m ;; k" := (bind m (fun _ => k))
  (at level 61, right associativity) : shelf_scope.
Open Scope shelf_scope.

(** A call of a function of the program: its [return] ends the call, not
    the caller. *)
Definition call (m : M unit) : M unit :=
  fun st ins =>
    let r := m st ins in
    match ctl r with
    | Raise e => r
    | _ => mkResult (Next tt) (db r) (out r) (pending r)
    end.

Definition print (text : string) : M unit :=
  fun st ins => mkResult (Next tt) st [Print text] ins.

Definition show (e : event) : M unit :=
  fun st ins => mkResult (Next tt) st [e] ins.

(** [input(prompt)]: the next line, or [EOFError] when there is none. *)
Definition input (prompt : string) : M pystr :=
  fun st ins =>
    match ins with
    | [] => mkResult (Raise EOFError) st [Prompt prompt] []
    | line :: rest => mkResult (Next line) st [Prompt prompt] rest
    end.

(** [cursor.execute] of a mutating statement that cannot fail. *)
Definition execute (f : store -> store) : M unit :=
  fun st ins => mkResult (Next tt) (f st) [] ins.

(** Lines 109-126.  The test of [cancel_operation]; its message is
    printed by [cancelled]. *)
Definition cancel_operation (user_input : pystr) : bool :=
  PyStr.eqb (lower user_input) (str "x").

Definition cancelled (A : Type) : M A :=
  fun st ins => say "Operation cancelled." (stop A st ins).

(** Lines 129-148.  Every statement is committed at once, so the store
    of the model is the committed one. *)
Definition commit_and_print (message : string) : M unit :=
  print message.

(** The test repeated at each identifier prompt (lines 176, 244, 276, 364,
    444, 538, 620, 700) and the conversion that follows it:
    [if not s.isdigit() or len(s) != 4: ...] then [int(s)]. *)
Inductive id_check :=
| IdRejected
| IdValue (n : Z)
| IdValueError.

Definition four_digit_id (s : pystr) : id_check :=
  if (negb (isdigit s) || negb (len s =? 4)%Z)%bool then IdRejected
  else match PyStr.int s with
       | Some n => IdValue n
       | None => IdValueError
       end.

(** ** add_author (lines 151-201) *)

(** Lines 168-185: the loop that yields an unused 4-digit author id. *)
Fixpoint new_author_id (st : store) (ins : list pystr) {struct ins}
  : result Z :=
  let prompt := "Enter new 4-digit author ID or 'x' to cancel: "%string in
  match ins with
  | [] => emit (Prompt prompt) (raise Z EOFError st [])
  | line :: rest =>
    emit (Prompt prompt)
      (let author_input := strip line in
       if PyStr.eqb (lower author_input) (str "x") then cancelled Z st rest
       else
         match four_digit_id author_input with
         | IdRejected =>
           say "Author ID must be a numeric value with exactly 4 digits.\n"
               (new_author_id st rest)
         | IdValueError => raise Z ValueError st rest
         | IdValue author_id =>
           if Sql.found (Sql.fetchone (Sql.author_by_id st author_id))
           then say "An author with that ID already exists. Try another.\n"
                    (new_author_id st rest)
           else ret author_id st rest
         end)
  end.

(** INSERT INTO author(id, name, country) VALUES (?, ?, ?) *)
Definition insert_author (a : Author) : M unit :=
  fun st ins =>
    match Sql.insert a_id a (author st) with
    | Some t => mkResult (Next tt) (mkStore (book st) t) [] ins
    | None => raise unit IntegrityError st ins
    end.

Definition add_author : M unit :=
  author_id <- new_author_id ;;
  line <- input "Enter author name: " ;;
  let name := title (strip line) in
  if is_empty name then print "Author name cannot be empty." ;; stop unit
  else
    line <- input "Enter author's country: " ;;
    let country := title (strip line) in
    if is_empty country then print "Author country cannot be empty." ;; stop unit
    else
      insert_author (mkAuthor author_id name country) ;;
      commit_and_print "Author added successfully.\n".

(** ** add_book_or_author (lines 204-327) *)

(** Lines 238-259: the loop that yields an unused 4-digit book id. *)
Fixpoint new_book_id (st : store) (ins : list pystr) {struct ins}
  : result Z :=
  let prompt := "Enter 4-digit book ID or 'x' to cancel: "%string in
  match ins with
  | [] => emit (Prompt prompt) (raise Z EOFError st [])
  | line :: rest =>
    emit (Prompt prompt)
      (let book_id_input := strip line in
       if cancel_operation book_id_input then cancelled Z st rest
       else
         match four_digit_id book_id_input with
         | IdRejected =>
           say "Book ID must be a numeric value with exactly 4 digits.\n"
               (new_book_id st rest)
         | IdValueError => raise Z ValueError st rest
         | IdValue book_id =>
           if Sql.found (Sql.fetchone (Sql.book_by_id st book_id))
           then say "A book with that ID already exists. Please enter a different ID.\n"
                    (new_book_id st rest)
           else ret book_id st rest
         end)
  end.

(** Lines 270-291: the loop that yields the id of an existing author. *)
Fixpoint existing_author_id (st : store) (ins : list pystr) {struct ins}
  : result Z :=
  let prompt := "Enter 4-digit author ID or 'x' to cancel: "%string in
  match ins with
  | [] => emit (Prompt prompt) (raise Z EOFError st [])
  | line :: rest =>
    emit (Prompt prompt)
      (let author_id_input := strip line in
       if cancel_operation author_id_input then cancelled Z st rest
       else
         match four_digit_id author_id_input with
         | IdRejected =>
           say "Author ID must be a numeric value with exactly 4 digits.\n"
               (existing_author_id st rest)
         | IdValueError => raise Z ValueError st rest
         | IdValue author_id =>
           if Sql.found (Sql.fetchone (Sql.author_by_id st author_id))
           then ret author_id st rest
           else say "No author found with that ID. Please enter a valid author ID.\n"
                    (existing_author_id st rest)
         end)
  end.

(** Lines 294-307: the loop that yields a quantity that is not negative. *)
Fixpoint new_quantity (st : store) (ins : list pystr) {struct ins}
  : result Z :=
  let prompt := "Enter quantity or 'x' to cancel: "%string in
  match ins with
  | [] => emit (Prompt prompt) (raise Z EOFError st [])
  | line :: rest =>
    emit (Prompt prompt)
      (let qty_input := strip line in
       if cancel_operation qty_input then cancelled Z st rest
       else if is_empty qty_input
       then say "Quantity is required.\n" (new_quantity st rest)
       else
         match PyStr.int qty_input with
         | Some qty =>
           if (0 <=? qty)%Z then ret qty st rest
           else say "Quantity cannot be negative.\n" (new_quantity st rest)
         | None =>
           say "Invalid input. Please enter a numeric quantity.\n"
               (new_quantity st rest)
         end)
  end.

(** INSERT INTO book(id, title, authorID, qty) VALUES(?, ?, ?, ?) *)
Definition insert_book (b : Book) : M unit :=
  fun st ins =>
    if (Sql.max_integer <? b_qty b)%Z then raise unit OverflowError st ins
    else
      match Sql.insert b_id b (book st) with
      | Some t => mkResult (Next tt) (mkStore t (author st)) [] ins
      | None => raise unit IntegrityError st ins
      end.

(** Lines 235-318: the branch [choice == "book"]. *)
Definition add_book : M unit :=
  book_id <- new_book_id ;;
  line <- input "Enter book title or 'x' to cancel: " ;;
  let title := strip line in
  if cancel_operation title then cancelled unit
  else if is_empty title then print "Book title is required.\n" ;; stop unit
  else
    author_id <- existing_author_id ;;
    qty <- new_quantity ;;
    insert_book (mkBook book_id title author_id qty) ;;
    commit_and_print "Book added successfully.\n" ;;
    stop unit.

Fixpoint add_book_or_author (st : store) (ins : list pystr) {struct ins}
  : result unit :=
  let prompt :=
    "What would you like to add? ('Book' or 'Author', or 'x' to cancel): "%string in
  match ins with
  | [] => emit (Prompt prompt) (raise unit EOFError st [])
  | line :: rest =>
    emit (Prompt prompt)
      (let choice := lower (strip line) in
       if cancel_operation choice then cancelled unit st rest
       else if PyStr.eqb choice (str "book") then add_book st rest
       else if PyStr.eqb choice (str "author")
       then (call add_author ;; stop unit) st rest
       else say "Invalid input. Please type 'book', 'author', or 'x' to cancel.\n"
                (add_book_or_author st rest))
  end.

(** ** update_book (lines 330-509) *)

(** Lines 354-373: the loop that yields the id and the row of the book to
    update. *)
Fixpoint book_to_update (st : store) (ins : list pystr) {struct ins}
  : result (Z * Book) :=
  let prompt :=
    "Enter the ID of the book to update (or 'x' to cancel): "%string in
  match ins with
  | [] => emit (Prompt prompt) (raise (Z * Book) EOFError st [])
  | line :: rest =>
    emit (Prompt prompt)
      (let book_id_input := strip line in
       if cancel_operation book_id_input then cancelled (Z * Book) st rest
       else if is_empty book_id_input
       then say "Book ID is required.\n" (book_to_update st rest)
       else
         match four_digit_id book_id_input with
         | IdRejected =>
           say "Book ID must be a 4-digit number.\n" (book_to_update st rest)
         | IdValueError => raise (Z * Book) ValueError st rest
         | IdValue book_id =>
           match Sql.fetchone (Sql.book_by_id st book_id) with
           | Some book => ret (book_id, book) st rest
           | None =>
             say "No book found with that ID. Please try again.\n"
                 (book_to_update st rest)
           end
         end)
  end.

(** UPDATE book SET qty = ? WHERE id = ?, with the bound quantity. *)
Definition update_qty_statement (new_qty book_id : Z) : M unit :=
  fun st ins =>
    if (Sql.max_integer <? new_qty)%Z then raise unit OverflowError st ins
    else execute (Sql.set_qty new_qty book_id) st ins.

(** Lines 393-414: the branch [update_choice == "qty"]. *)
Fixpoint update_qty (book_id : Z) (st : store) (ins : list pystr)
  {struct ins} : result unit :=
  let prompt := "Enter new quantity (or 'x' to cancel): "%string in
  match ins with
  | [] => emit (Prompt prompt) (raise unit EOFError st [])
  | line :: rest =>
    emit (Prompt prompt)
      (let new_qty_input := strip line in
       if cancel_operation new_qty_input then cancelled unit st rest
       else if is_empty new_qty_input
       then say "Quantity is required.\n" (update_qty book_id st rest)
       else
         match PyStr.int new_qty_input with
         | Some new_qty =>
           if (new_qty <? 0)%Z
           then say "Quantity cannot be negative.\n"
                    (update_qty book_id st rest)
           else (update_qty_statement new_qty book_id ;;
                 commit_and_print "Quantity updated successfully.\n" ;;
                 stop unit) st rest
         | None =>
           say "Invalid quantity. Please enter a number.\n"
               (update_qty book_id st rest)
         end)
  end.

(** Lines 417-429: the branch [update_choice == "title"]. *)
Fixpoint update_title (book_id : Z) (st : store) (ins : list pystr)
  {struct ins} : result unit :=
  let prompt := "Enter new title (or 'x' to cancel): "%string in
  match ins with
  | [] => emit (Prompt prompt) (raise unit EOFError st [])
  | line :: rest =>
    emit (Prompt prompt)
      (let new_title := strip line in
       if cancel_operation new_title then cancelled unit st rest
       else if is_empty new_title
       then say "Title cannot be empty. Please try again.\n"
                (update_title book_id st rest)
       else (execute (Sql.set_title new_title book_id) ;;
             commit_and_print "Title updated successfully.\n" ;;
             stop unit) st rest)
  end.

(** Lines 432-465: the branch [update_choice == "authorid"]. *)
Fixpoint update_authorid (book_id : Z) (st : store) (ins : list pystr)
  {struct ins} : result unit :=
  let prompt :=
    "Enter new author ID (must already exist, or 'x' to cancel): "%string in
  match ins with
  | [] => emit (Prompt prompt) (raise unit EOFError st [])
  | line :: rest =>
    emit (Prompt prompt)
      (let new_author_id_input := strip line in
       if cancel_operation new_author_id_input then cancelled unit st rest
       else if is_empty new_author_id_input
       then say "Author ID is required.\n" (update_authorid book_id st rest)
       else
         match four_digit_id new_author_id_input with
         | IdRejected =>
           say "Author ID must be a 4-digit number.\n"
               (update_authorid book_id st rest)
         | IdValueError => raise unit ValueError st rest
         | IdValue new_author_id =>
           if Sql.found (Sql.fetchone (Sql.author_by_id st new_author_id))
           then (execute (Sql.set_authorID new_author_id book_id) ;;
                 commit_and_print "Book's author ID updated successfully.\n" ;;
                 stop unit) st rest
           else say "The author ID does not exist. Please enter an existing author ID.\n"
                    (update_authorid book_id st rest)
         end)
  end.

(** Lines 472-501: the branch [update_choice == "author"] once the author
    row of the book was found; [author] is the row selected at line 468
    and [book] the row read at line 369. *)
Definition update_author_details (book : Book) (author : Author) : M unit :=
  show (PrintCurrentName (a_name author)) ;;
  show (PrintCurrentCountry (a_country author)) ;;
  line <- input "Enter new author name (or press Enter to keep current, or 'x' to cancel): " ;;
  let new_name := strip line in
  if cancel_operation new_name then cancelled unit
  else
    line <- input "Enter new author country (or press Enter to keep current, or 'x' to cancel): " ;;
    let new_country := strip line in
    if cancel_operation new_country then cancelled unit
    else
      let new_name := if is_empty new_name then a_name author else new_name in
      let new_country :=
        if is_empty new_country then a_country author else new_country in
      execute (Sql.set_author new_name new_country (b_authorID book)) ;;
      commit_and_print "Author information updated successfully.\n" ;;
      stop unit.

(** Lines 381-509: the loop over the field to update. *)
Fixpoint update_field (book_id : Z) (book : Book) (st : store)
  (ins : list pystr) {struct ins} : result unit :=
  let prompt :=
    "What would you like to update? (qty/title/authorID/author) [default is qty, 'x' to cancel]: "%string in
  match ins with
  | [] => emit (Prompt prompt) (raise unit EOFError st [])
  | line :: rest =>
    emit (Prompt prompt)
      (let update_choice := lower (strip line) in
       if cancel_operation update_choice then cancelled unit st rest
       else
         let update_choice :=
           if is_empty update_choice then str "qty" else update_choice in
         if PyStr.eqb update_choice (str "qty")
         then update_qty book_id st rest
         else if PyStr.eqb update_choice (str "title")
         then update_title book_id st rest
         else if PyStr.eqb update_choice (str "authorid")
         then update_authorid book_id st rest
         else if PyStr.eqb update_choice (str "author")
         then
           match Sql.fetchone (Sql.author_by_id st (b_authorID book)) with
           | Some author => update_author_details book author st rest
           | None =>
             say "Author not found for this book.\n"
                 (update_field book_id book st rest)
           end
         else say "Invalid field. Please choose from: qty, title, authorID, or author.\n"
                  (update_field book_id book st rest))
  end.

Definition update_book : M unit :=
  selected <- book_to_update ;;
  let book_id := fst selected in
  let book := snd selected in
  show (PrintBook "Current book details:" book) ;;
  update_field book_id book.

(** ** delete_author (lines 512-578) *)

(** Lines 529-547: the loop that yields the id and the row of the author
    to delete. *)
Fixpoint author_to_delete (st : store) (ins : list pystr) {struct ins}
  : result (Z * Author) :=
  let prompt :=
    "Enter the 4-digit ID of the author to delete (or 'x' to cancel): "%string in
  match ins with
  | [] => emit (Prompt prompt) (raise (Z * Author) EOFError st [])
  | line :: rest =>
    emit (Prompt prompt)
      (let author_id_input := strip line in
       if cancel_operation author_id_input
       then cancelled (Z * Author) st rest
       else if is_empty author_id_input
       then say "Author ID is required.\n" (author_to_delete st rest)
       else
         match four_digit_id author_id_input with
         | IdRejected =>
           say "Author ID must be a 4-digit number.\n"
               (author_to_delete st rest)
         | IdValueError => raise (Z * Author) ValueError st rest
         | IdValue author_id =>
           match Sql.fetchone (Sql.author_by_id st author_id) with
           | Some author => ret (author_id, author) st rest
           | None =>
             say "No author found with that ID. Try again.\n"
                 (author_to_delete st rest)
           end
         end)
  end.

(** Lines 564-578: the confirmation loop of [delete_author]. *)
Fixpoint confirm_delete_author (author_id : Z) (st : store)
  (ins : list pystr) {struct ins} : result unit :=
  let prompt := "Delete this author? (yes/no): "%string in
  match ins with
  | [] => emit (Prompt prompt) (raise unit EOFError st [])
  | line :: rest =>
    emit (Prompt prompt)
      (let confirm := lower (strip line) in
       if cancel_operation confirm then cancelled unit st rest
       else if PyStr.eqb confirm (str "yes")
       then (execute (Sql.delete_author author_id) ;;
             commit_and_print "Author deleted successfully.\n" ;;
             stop unit) st rest
       else if PyStr.eqb confirm (str "no")
       then (print "Deletion cancelled.\n" ;; stop unit) st rest
       else say "Please type 'yes' or 'no'."
                (confirm_delete_author author_id st rest))
  end.

Definition delete_author : M unit :=
  selected <- author_to_delete ;;
  let author_id := fst selected in
  let author := snd selected in
  fun st ins =>
    let books := Sql.books_by_author st author_id in
    match books with
    | _ :: _ =>
      (print "This author has books associated with them." ;;
       print "Please delete those books first.\n" ;;
       stop unit) st ins
    | [] =>
      (show (PrintAuthor "Author selected:" author) ;;
       confirm_delete_author author_id) st ins
    end.

(** ** delete_book_or_author (lines 581-656) *)

(** Lines 610-630: the loop that yields the id and the row of the book to
    delete. *)
Fixpoint book_to_delete (st : store) (ins : list pystr) {struct ins}
  : result (Z * Book) :=
  let prompt :=
    "Enter the 4-digit ID of the book to delete (or 'x' to cancel): "%string in
  match ins with
  | [] => emit (Prompt prompt) (raise (Z * Book) EOFError st [])
  | line :: rest =>
    emit (Prompt prompt)
      (let book_input := strip line in
       if cancel_operation book_input then cancelled (Z * Book) st rest
       else if is_empty book_input
       then say "Book ID is required.\n" (book_to_delete st rest)
       else
         match four_digit_id book_input with
         | IdRejected =>
           say "Book ID must be a 4-digit number.\n" (book_to_delete st rest)
         | IdValueError => raise (Z * Book) ValueError st rest
         | IdValue book_id =>
           match Sql.fetchone (Sql.book_by_id st book_id) with
           | Some book => ret (book_id, book) st rest
           | None =>
             say "No book found with that ID.\n" (book_to_delete st rest)
           end
         end)
  end.

(** Lines 638-650: the confirmation loop of the book branch. *)
Fixpoint confirm_delete_book (book_id : Z) (st : store) (ins : list pystr)
  {struct ins} : result unit :=
  let prompt := "Delete this book? (yes/no): "%string in
  match ins with
  | [] => emit (Prompt prompt) (raise unit EOFError st [])
  | line :: rest =>
    emit (Prompt prompt)
      (let confirm := lower (strip line) in
       if PyStr.eqb confirm (str "yes")
       then (execute (Sql.delete_book book_id) ;;
             commit_and_print "Book deleted successfully.\n" ;;
             stop unit) st rest
       else if PyStr.eqb confirm (str "no")
       then (print "Deletion cancelled.\n" ;; stop unit) st rest
       else say "Please type 'yes' or 'no'.\n"
                (confirm_delete_book book_id st rest))
  end.

(** Lines 609-650: the branch [choice == "book"]. *)
Definition delete_book : M unit :=
  selected <- book_to_delete ;;
  let book_id := fst selected in
  let book := snd selected in
  show (PrintBook "Book selected:" book) ;;
  confirm_delete_book book_id.

Fixpoint delete_book_or_author (st : store) (ins : list pystr) {struct ins}
  : result unit :=
  let prompt :=
    "What would you like to delete? ('Book' or 'Author' or 'x' to cancel): "%string in
  match ins with
  | [] => emit (Prompt prompt) (raise unit EOFError st [])
  | line :: rest =>
    emit (Prompt prompt)
      (let choice := lower (strip line) in
       if cancel_operation choice then cancelled unit st rest
       else if is_empty choice
       then say "Input cannot be blank.\n" (delete_book_or_author st rest)
       else if PyStr.eqb choice (str "book") then delete_book st rest
       else if PyStr.eqb choice (str "author")
       then (call delete_author ;; stop unit) st rest
       else say "Invalid option. Choose 'Book' or 'Author'.\n"
                (delete_book_or_author st rest))
  end.

(** ** search_books (lines 659-741) *)

Fixpoint search_books (st : store) (ins : list pystr) {struct ins}
  : result unit :=
  let prompt :=
    "Search by ID or title? (type 'id' or 'title', or 'x' to cancel): "%string in
  let id_prompt := "Enter the 4-digit book ID (or 'x' to cancel): "%string in
  let title_prompt :=
    "Enter the book title (or part of it, or 'x' to cancel): "%string in
  match ins with
  | [] => emit (Prompt prompt) (raise unit EOFError st [])
  | line :: rest =>
    emit (Prompt prompt)
      (let search_by := lower (strip line) in
       if cancel_operation search_by then cancelled unit st rest
       else if is_empty search_by
       then say "Input cannot be blank.\n" (search_books st rest)
       else if PyStr.eqb search_by (str "id") then
         match rest with
         | [] => emit (Prompt id_prompt) (raise unit EOFError st [])
         | line' :: rest' =>
           emit (Prompt id_prompt)
             (let book_input := strip line' in
              if cancel_operation book_input then cancelled unit st rest'
              else if is_empty book_input
              then say "Book ID is required.\n" (search_books st rest')
              else
                match four_digit_id book_input with
                | IdRejected =>
                  say "Book ID must be a 4-digit number.\n"
                      (search_books st rest')
                | IdValueError => raise unit ValueError st rest'
                | IdValue book_id =>
                  match Sql.fetchone (Sql.book_by_id st book_id) with
                  | Some book =>
                    (show (PrintBook "Book found:" book) ;; stop unit) st rest'
                  | None =>
                    say "No book found with that ID.\n" (search_books st rest')
                  end
                end)
         end
       else if PyStr.eqb search_by (str "title") then
         match rest with
         | [] => emit (Prompt title_prompt) (raise unit EOFError st [])
         | line' :: rest' =>
           emit (Prompt title_prompt)
             (let title := strip line' in
              if cancel_operation title then cancelled unit st rest'
              else if is_empty title
              then say "Book title is required.\n" (search_books st rest')
              else
                let books := Sql.books_like st title in
                match books with
                | _ :: _ =>
                  mkResult Return st
                    (Print "\nBooks found:"
                       :: map PrintBookLine books ++ [Print ""])
                    rest'
                | [] =>
                  say "No books found matching that title.\n"
                      (search_books st rest')
                end)
         end
       else say "Invalid option. Please type 'id', 'title', or 'x'.\n"
                (search_books st rest))
  end.

(** ** view_all_books (lines 744-777) *)

Definition rule : string :=
  "-------------------------------------------------------".

Definition view_all_books : M unit :=
  fun st ins =>
    mkResult (Next tt) st
      (Print "\nDetails" :: Print rule
         :: flat_map (fun row =>
              match row with
              | (title, name, country) =>
                [PrintDetails title name country; Print rule]
              end) (Sql.joined st))
      ins.

(** ** main_menu (lines 780-818) *)

Definition menu_text : string :=
  "Select one of the following options:\n    1 - add book/author\n    2 - update book\n    3 - delete book/author\n    4 - search books\n    5 - view details of all books\n    0 - exit\n    : ".

(** The workflow a menu line selects, if any. *)
Definition menu_action (menu : pystr) : option (M unit) :=
  if PyStr.eqb menu (str "1") then Some add_book_or_author
  else if PyStr.eqb menu (str "2") then Some update_book
  else if PyStr.eqb menu (str "3") then Some delete_book_or_author
  else if PyStr.eqb menu (str "4") then Some search_books
  else if PyStr.eqb menu (str "5") then Some view_all_books
  else None.

(** What was printed before [r] goes in front of what [r] printed. *)
Definition after (A : Type) (before : list event) (r : result A)
  : result A :=
  mkResult (ctl r) (db r) (before ++ out r) (pending r).

(** The menu loop.  A workflow hands back the lines it did not read, so
    the recursion is on a counter of iterations; [main_menu] starts it with
    one more than the number of pending lines, and each iteration reads at
    least the menu line. *)
Fixpoint main_menu_loop (fuel : nat) (st : store) (ins : list pystr)
  : option (result unit) :=
  match fuel with
  | O => None
  | S fuel' =>
    match ins with
    | [] => Some (emit (Prompt menu_text) (raise unit EOFError st []))
    | line :: rest =>
      let menu := strip line in
      match menu_action menu with
      | Some workflow =>
        let r := call workflow st rest in
        match ctl r with
        | Raise e => Some (emit (Prompt menu_text) r)
        | _ =>
          option_map (after (Prompt menu_text :: out r))
                     (main_menu_loop fuel' (db r) (pending r))
        end
      | None =>
        if PyStr.eqb menu (str "0")
        then Some (emit (Prompt menu_text) (print "Goodbye!!!" st rest))
        else option_map (after [Prompt menu_text; Print "Invalid option."])
                        (main_menu_loop fuel' st rest)
      end
    end
  end.

Definition main_menu (st : store) (ins : list pystr)
  : option (result unit) :=
  main_menu_loop (S (List.length ins)) st ins.

(** ** The module body (lines 821-825) and the bootstrap *)

(** The database file as [connect_db] finds it: a table is absent or holds
    rows.  A file that does not exist yet has no table. *)
Record database := mkDatabase {
  book_table : option (list Book);
  author_table : option (list Author)
}.

Definition new_file : database := mkDatabase None None.

(** Lines 29-63: CREATE TABLE IF NOT EXISTS, twice, and a commit. *)
Definition create_tables (file : database) : store :=
  mkStore
    (match book_table file with Some t => t | None => [] end)
    (match author_table file with Some t => t | None => [] end).

Definition book_data : list Book :=
  [ mkBook 3001 (str "A Tale of Two Cities") 1290 30;
    mkBook 3002 (str "Harry Potter and the Philosopher's Stone") 8937 40;
    mkBook 3003 (str "The Lion, the Witch and the Wardrobe") 2356 25;
    mkBook 3004 (str "The Lord of the Rings") 6380 37;
    mkBook 3005 (str "Alice's Adventures in Wonderland") 5620 12 ].

Definition author_data : list Author :=
  [ mkAuthor 1290 (str "Charles Dickens") (str "England");
    mkAuthor 8937 (str "J.K. Rowling") (str "England");
    mkAuthor 2356 (str "C.S. Lewis") (str "Ireland");
    mkAuthor 6380 (str "J.R.R. Tolkien") (str "South Africa");
    mkAuthor 5620 (str "Lewis Carroll") (str "England") ].

(** Lines 66-106.  The rows go in within one transaction, committed at
    line 106; an exception leaves the [with] block of line 821, which rolls
    the transaction back, so the store is then the one [create_tables]
    committed. *)
Definition insert_sample_data : M unit :=
  fun st ins =>
    match Sql.insert_many b_id book_data (book st) with
    | None => raise unit IntegrityError st ins
    | Some books =>
      emit (Print "Books added\n")
        (match Sql.insert_many a_id author_data (author st) with
         | None => raise unit IntegrityError st ins
         | Some authors =>
           emit (Print "Authors added\n")
                (ret tt (mkStore books authors) ins)
         end)
    end.


(** ** The properties the specification states *)

(** The integrity guard: the test the program makes before it writes an
    author id into a book (lines 284-286 and 450-452). *)
Definition author_exists (st : store) (k : Z) : bool :=
  Sql.found (Sql.fetchone (Sql.author_by_id st k)).

(** Every book names an author that is in the store. *)
Definition referential (st : store) : Prop :=
  forall b, In b (book st) -> author_exists st (b_authorID b) = true.

(** One execution of an add, update or delete workflow, on any lines; the
    store it leaves also when an exception ends it. *)
Inductive workflow_step : store -> store -> Prop :=
| step_add st ins : workflow_step st (db (add_book_or_author st ins))
| step_update st ins : workflow_step st (db (update_book st ins))
| step_delete st ins : workflow_step st (db (delete_book_or_author st ins)).

(** Any sequence of such executions. *)
Inductive reachable (st : store) : store -> Prop :=
| reach_here : reachable st st
| reach_step st' st'' :
    reachable st st' -> workflow_step st' st'' -> reachable st st''.

(** The primary key: no two rows of a table share an id. *)
Definition primary_keys (st : store) : Prop :=
  NoDup (map b_id (book st)) /\ NoDup (map a_id (author st)).



(** An integer that four decimal digits can denote. *)
Definition id_range (n : Z) : Prop := (0 <= n <= 9999)%Z.


(** A string of exactly four ASCII digits, and the integer it denotes. *)
Definition ascii_digit (c : char) : bool := between 0x30 0x39 c.

Definition four_ascii_digits (s : pystr) : bool :=
  (Nat.eqb (List.length s) 4 && forallb ascii_digit s)%bool.

Definition decimal (s : pystr) : Z :=
  fold_left (fun acc c => (10 * acc + (Z.of_N c - 48))%Z) s 0%Z.









(** The store once the sample rows went into a new file. *)
Definition seeded : store :=
  Eval vm_compute in db (insert_sample_data (create_tables new_file) []).


(** The one statement a workflow may execute, with what the program has
    checked before it executes it. *)
Inductive mutation (st : store) : store -> Prop :=
| mut_none : mutation st st
| mut_insert_author a t :
    id_range (a_id a) ->
    Sql.insert a_id a (author st) = Some t ->
    mutation st (mkStore (book st) t)
| mut_insert_book b t :
    id_range (b_id b) ->
    author_exists st (b_authorID b) = true ->
    Sql.insert b_id b (book st) = Some t ->
    mutation st (mkStore t (author st))
| mut_set_qty new_qty k : mutation st (Sql.set_qty new_qty k st)
| mut_set_title new_title k : mutation st (Sql.set_title new_title k st)
| mut_set_authorID new_author_id k :
    author_exists st new_author_id = true ->
    mutation st (Sql.set_authorID new_author_id k st)
| mut_set_author new_name new_country k :
    mutation st (Sql.set_author new_name new_country k st)
| mut_delete_book k : mutation st (Sql.delete_book k st)
| mut_delete_author k :
    Sql.books_by_author st k = [] ->
    mutation st (Sql.delete_author k st).

(** A block that only reads the store: it leaves the store as it is, hands
    back no more lines than it was given, and a value it yields satisfies
    [Q]. *)
Definition reads (A : Type) (m : M A) (Q : store -> A -> Prop) : Prop :=
  forall st ins,
    db (m st ins) = st
    /\ (List.length (pending (m st ins)) <= List.length ins)%nat
    /\ forall a, ctl (m st ins) = Next a -> Q st a.

(** A block that executes at most one statement and yields no value: a
    workflow, or the rest of one. *)
Definition writes_once (m : M unit) : Prop :=
  forall st ins,
    mutation st (db (m st ins))
    /\ (List.length (pending (m st ins)) <= List.length ins)%nat.

(** ** What a run accounts for *)

(** The messages [commit_and_print] is called with, one per statement. *)
Definition success_messages : list string :=
  [ "Author added successfully.\n";
    "Book added successfully.\n";
    "Quantity updated successfully.\n";
    "Title updated successfully.\n";
    "Book's author ID updated successfully.\n";
    "Author information updated successfully.\n";
    "Author deleted successfully.\n";
    "Book deleted successfully.\n" ]%string.

Definition success_message (m : string) : bool :=
  existsb (String.eqb m) success_messages.

(** The message of [cancel_operation]. *)
Definition cancel_message (m : string) : bool :=
  String.eqb m "Operation cancelled.".

(** Some [print] of the trace shows a message of the given kind. *)
Definition prints (which : string -> bool) (trace : list event) : bool :=
  existsb (fun e => match e with Print m => which m | _ => false end) trace.

(** A statement with the message that reports it and everything the
    program has checked by the time it executes it. *)
Inductive effect (st : store) : string -> store -> Prop :=
| eff_insert_author a t :
    id_range (a_id a) ->
    a_name a <> [] -> a_country a <> [] ->
    Sql.insert a_id a (author st) = Some t ->
    effect st "Author added successfully.\n" (mkStore (book st) t)
| eff_insert_book b t :
    id_range (b_id b) ->
    b_title b <> [] -> cancel_operation (b_title b) = false ->
    author_exists st (b_authorID b) = true ->
    (0 <= b_qty b <= Sql.max_integer)%Z ->
    Sql.insert b_id b (book st) = Some t ->
    effect st "Book added successfully.\n" (mkStore t (author st))
| eff_set_qty new_qty k :
    (0 <= new_qty <= Sql.max_integer)%Z ->
    effect st "Quantity updated successfully.\n" (Sql.set_qty new_qty k st)
| eff_set_title new_title k :
    new_title <> [] -> cancel_operation new_title = false ->
    effect st "Title updated successfully.\n" (Sql.set_title new_title k st)
| eff_set_authorID new_author_id k :
    author_exists st new_author_id = true ->
    effect st "Book's author ID updated successfully.\n"
           (Sql.set_authorID new_author_id k st)
| eff_set_author new_name new_country k current :
    Sql.fetchone (Sql.author_by_id st k) = Some current ->
    new_name = a_name current \/ new_name <> [] ->
    new_country = a_country current \/ new_country <> [] ->
    effect st "Author information updated successfully.\n"
           (Sql.set_author new_name new_country k st)
| eff_delete_book k :
    effect st "Book deleted successfully.\n" (Sql.delete_book k st)
| eff_delete_author k :
    Sql.books_by_author st k = [] ->
    effect st "Author deleted successfully.\n" (Sql.delete_author k st).

(** Why a run that ends in an exception does, read against the lines it
    was given: the lines ran out, a line with a character outside ASCII
    passed [isdigit], or a quantity exceeds an INTEGER. *)
Definition explained (A : Type) (ins : list pystr) (r : result A) : Prop :=
  forall e, ctl r = Raise e ->
    match e with
    | EOFError => pending r = []
    | ValueError =>
      exists line, In line ins /\ forallb is_ascii line = false
    | OverflowError =>
      exists line q,
        In line ins /\ PyStr.int (strip line) = Some q
        /\ (Sql.max_integer < q)%Z
    | IntegrityError => False
    end.

(** A block that asks: the store is as before, no success is reported,
    the lines left are among the lines given, a value it yields satisfies
    [Q] and was not preceded by a cancellation. *)
Definition asks (A : Type) (Q : A -> Prop) (st : store)
  (ins : list pystr) (r : result A) : Prop :=
  db r = st
  /\ incl (pending r) ins
  /\ prints success_message (out r) = false
  /\ (forall a, ctl r = Next a ->
        Q a /\ prints cancel_message (out r) = false)
  /\ explained ins r.

(** A workflow, or the rest of one: either the store is as before and no
    success is reported, or one statement was executed, its success
    message is the last thing printed, nothing before it reports a success
    or a cancellation, and no exception ends the run. *)
Definition accounts (st : store) (ins : list pystr) (r : result unit)
  : Prop :=
  incl (pending r) ins
  /\ ((db r = st
       /\ prints success_message (out r) = false
       /\ explained ins r)
      \/ (exists msg trace,
            effect st msg (db r)
            /\ out r = trace ++ [Print msg]
            /\ prints success_message trace = false
            /\ prints cancel_message trace = false
            /\ (ctl r = Return \/ ctl r = Next tt))).

(** Every quantity is one the program accepts and an INTEGER holds. *)
Definition quantities_valid (st : store) : Prop :=
  Forall (fun b => (0 <= b_qty b <= Sql.max_integer)%Z) (book st).

(** No title is empty or the cancellation token; no name or country of an
    author is empty. *)
Definition texts_present (st : store) : Prop :=
  Forall (fun b => b_title b <> [] /\ cancel_operation (b_title b) = false)
         (book st)
  /\ Forall (fun a => a_name a <> [] /\ a_country a <> []) (author st).

(** The four decimal digits that spell an identifier, zeros in front. *)
Definition spell (n : Z) : pystr :=
  [ Z.to_N (48 + n / 1000 mod 10); Z.to_N (48 + n / 100 mod 10);
    Z.to_N (48 + n / 10 mod 10); Z.to_N (48 + n mod 10) ]%Z.


(** The row [view_all_books] shows for a book and its author. *)
Definition details (b : Book) (a : Author) : pystr * pystr * pystr :=
  (b_title b, a_name a, a_country a).

(** * Proofs *)

Unset Implicit Arguments.

#[local] Arguments strip : simpl never.
#[local] Arguments lower : simpl never.
#[local] Arguments str : simpl never.
#[local] Arguments PyStr.eqb : simpl never.
#[local] Arguments PyStr.int : simpl never.
#[local] Arguments cancel_operation : simpl never.
#[local] Arguments four_digit_id : simpl never.
#[local] Arguments Sql.fetchone : simpl never.
#[local] Arguments Sql.found : simpl never.
#[local] Arguments Sql.author_by_id : simpl never.
#[local] Arguments Sql.book_by_id : simpl never.
#[local] Arguments Sql.books_by_author : simpl never.
#[local] Arguments Sql.books_like : simpl never.
#[local] Arguments Sql.insert : simpl never.
#[local] Arguments Z.leb : simpl never.
#[local] Arguments Z.mul : simpl never.
#[local] Arguments Z.add : simpl never.
#[local] Arguments Z.sub : simpl never.
#[local] Arguments Z.of_N : simpl never.
#[local] Arguments Z.ltb : simpl never.

(** Case analysis on the tests of one loop iteration. *)
Ltac branch :=
  repeat (simpl;
          match goal with
          | |- context [if ?c then _ else _] => destruct c eqn:?
          | |- context [match ?x with _ => _ end] => destruct x eqn:?
          end);
  simpl.

(** ** Characters and identifiers *)

Ltac bool_to_prop :=
  repeat rewrite ?orb_true_iff, ?andb_true_iff, ?orb_false_iff,
    ?andb_false_iff, ?negb_true_iff, ?negb_false_iff, ?N.leb_le, ?N.leb_gt,
    ?N.eqb_eq, ?N.eqb_neq, ?N.ltb_lt, ?N.ltb_ge in *.

Lemma ascii_digit_isdigit c : ascii_digit c = true -> isdigit_char c = true.
Proof. unfold ascii_digit, isdigit_char, between. bool_to_prop. lia. Qed.

Lemma isdigit_ascii c :
  is_ascii c = true -> isdigit_char c = ascii_digit c.
Proof.
  unfold is_ascii, ascii_digit, isdigit_char, between. intros H.
  destruct (N.leb 48 c && N.leb c 57)%bool eqn:E; [ reflexivity | ].
  bool_to_prop. lia.
Qed.

Lemma isdigit_not_space c : isdigit_char c = true -> isspace c = false.
Proof. unfold isdigit_char, isspace, between. bool_to_prop. lia. Qed.

Lemma digit_val_ascii c :
  ascii_digit c = true -> digit_val c = Some (Z.of_N c - 48)%Z.
Proof. unfold digit_val, ascii_digit. intros ->. reflexivity. Qed.

Lemma digit_val_other c : ascii_digit c = false -> digit_val c = None.
Proof. unfold digit_val, ascii_digit. intros ->. reflexivity. Qed.

Lemma ascii_digit_range c :
  ascii_digit c = true -> (0 <= Z.of_N c - 48 <= 9)%Z.
Proof. unfold ascii_digit, between. bool_to_prop. lia. Qed.

Lemma ascii_digit_no_sign c :
  isdigit_char c = true ->
  N.eqb c 0x2B = false /\ N.eqb c 0x2D = false /\ N.eqb c 0x5F = false.
Proof. unfold isdigit_char, between. bool_to_prop. lia. Qed.

(** Four characters that pass [isdigit] are not touched by [strip]. *)
Lemma strip_four_digits a b c d :
  isdigit_char a = true -> isdigit_char d = true ->
  strip [a; b; c; d] = [a; b; c; d].
Proof.
  intros Ha Hd. unfold strip. simpl.
  rewrite (isdigit_not_space _ Ha). simpl.
  rewrite (isdigit_not_space _ Hd). reflexivity.
Qed.

(** The test and the conversion, on a string that passed the test. *)
Lemma four_digit_id_cases a b c d :
  isdigit_char a = true -> isdigit_char b = true ->
  isdigit_char c = true -> isdigit_char d = true ->
  four_digit_id [a; b; c; d] =
    if four_ascii_digits [a; b; c; d]
    then IdValue (decimal [a; b; c; d]) else IdValueError.
Proof.
  intros Ha Hb Hc Hd. unfold four_digit_id, isdigit, PyStr.int.
  rewrite strip_four_digits by assumption.
  simpl forallb. rewrite Ha, Hb, Hc, Hd. simpl.
  destruct (ascii_digit_no_sign _ Ha) as (-> & -> & _).
  destruct (ascii_digit_no_sign _ Hb) as (_ & _ & Eb).
  destruct (ascii_digit_no_sign _ Hc) as (_ & _ & Ec).
  destruct (ascii_digit_no_sign _ Hd) as (_ & _ & Ed).
  unfold four_ascii_digits, int_unsigned, decimal. simpl.
  destruct (ascii_digit a) eqn:Da;
    [ rewrite (digit_val_ascii _ Da) | rewrite (digit_val_other _ Da); reflexivity ].
  destruct (ascii_digit b) eqn:Db;
    [ rewrite (digit_val_ascii _ Db) | rewrite (digit_val_other _ Db), Eb; reflexivity ].
  destruct (ascii_digit c) eqn:Dc;
    [ rewrite (digit_val_ascii _ Dc) | rewrite (digit_val_other _ Dc), Ec; reflexivity ].
  destruct (ascii_digit d) eqn:Dd;
    [ rewrite (digit_val_ascii _ Dd) | rewrite (digit_val_other _ Dd), Ed; reflexivity ].
  reflexivity.
Qed.

Lemma four_digit_id_shape s :
  four_digit_id s <> IdRejected ->
  exists a b c d,
    s = [a; b; c; d] /\ isdigit_char a = true /\ isdigit_char b = true
    /\ isdigit_char c = true /\ isdigit_char d = true.
Proof.
  unfold four_digit_id, isdigit, len. intros H.
  destruct (negb _ || negb _)%bool eqn:E; [ congruence | ].
  bool_to_prop. destruct E as [[_ Hall] Hlen].
  apply Z.eqb_eq in Hlen.
  assert (Hn : List.length s = 4%nat) by lia.
  destruct s as [| a [| b [| c [| d [| e s]]]]]; try discriminate.
  simpl in Hall. bool_to_prop. exists a, b, c, d. tauto.
Qed.

Lemma four_digit_id_value s n :
  four_digit_id s = IdValue n ->
  four_ascii_digits s = true /\ n = decimal s.
Proof.
  intros H.
  destruct (four_digit_id_shape s) as (a & b & c & d & -> & Ha & Hb & Hc & Hd);
    [ congruence | ].
  rewrite four_digit_id_cases in H by assumption.
  destruct (four_ascii_digits [a; b; c; d]); [ split; congruence | discriminate ].
Qed.

Lemma four_ascii_digits_accepted s :
  four_ascii_digits s = true -> four_digit_id s = IdValue (decimal s).
Proof.
  intros H. pose proof H as H'. unfold four_ascii_digits in H'.
  destruct s as [| a [| b [| c [| d [| e s]]]]]; try discriminate.
  simpl in H'. bool_to_prop. destruct H' as (Ha & Hb & Hc & Hd & _).
  rewrite four_digit_id_cases by (apply ascii_digit_isdigit; assumption).
  rewrite H. reflexivity.
Qed.

Lemma four_ascii_digits_range s :
  four_ascii_digits s = true -> id_range (decimal s).
Proof.
  unfold four_ascii_digits.
  destruct s as [| a [| b [| c [| d [| e s]]]]]; try discriminate.
  simpl. intros H. repeat (apply andb_prop in H; destruct H as [? H]).
  repeat match goal with
         | H : ascii_digit _ = true |- _ => apply ascii_digit_range in H
         end.
  unfold id_range, decimal. simpl. lia.
Qed.

Lemma four_digit_id_range s n : four_digit_id s = IdValue n -> id_range n.
Proof.
  intros H. apply four_digit_id_value in H. destruct H as [H ->].
  apply four_ascii_digits_range, H.
Qed.

(** ** What the prompt loops read and yield *)

Ltac reads_loop ins :=
  intros st ins; induction ins as [| line rest IH];
  [ simpl; repeat split; auto; intros; discriminate
  | destruct IH as (IHdb & IHlen & IHval); branch;
    (split; [ auto | split; [ simpl; lia | ] ]);
    try (intros; discriminate); try assumption ].

Lemma reads_new_author_id :
  reads new_author_id
        (fun st a => id_range a /\ author_exists st a = false).
Proof.
  reads_loop ins.
  intros ? [= <-]. split; [ eapply four_digit_id_range; eassumption | assumption ].
Qed.

Lemma reads_new_book_id :
  reads new_book_id
        (fun st k =>
           id_range k /\ Sql.fetchone (Sql.book_by_id st k) = None).
Proof.
  reads_loop ins.
  intros ? [= <-]. split; [ eapply four_digit_id_range; eassumption | ].
  destruct (Sql.fetchone _); [ discriminate | reflexivity ].
Qed.

Lemma reads_existing_author_id :
  reads existing_author_id (fun st a => author_exists st a = true).
Proof. reads_loop ins. intros ? [= <-]. assumption. Qed.

Lemma reads_new_quantity : reads new_quantity (fun _ qty => (0 <= qty)%Z).
Proof. reads_loop ins. intros ? [= <-]. apply Z.leb_le. assumption. Qed.

Lemma reads_book_to_update :
  reads book_to_update
        (fun st sel =>
           Sql.fetchone (Sql.book_by_id st (fst sel)) = Some (snd sel)).
Proof. reads_loop ins. intros ? [= <-]. assumption. Qed.

Lemma reads_book_to_delete :
  reads book_to_delete
        (fun st sel =>
           Sql.fetchone (Sql.book_by_id st (fst sel)) = Some (snd sel)).
Proof. reads_loop ins. intros ? [= <-]. assumption. Qed.

Lemma reads_author_to_delete :
  reads author_to_delete
        (fun st sel =>
           Sql.fetchone (Sql.author_by_id st (fst sel)) = Some (snd sel)).
Proof. reads_loop ins. intros ? [= <-]. assumption. Qed.

(** [search_books] reads up to two lines per iteration: induction on the
    number of pending lines. *)
Lemma reads_search_books : reads search_books (fun _ _ => True).
Proof.
  intros st ins.
  assert (H : forall n ins, (List.length ins <= n)%nat ->
            db (search_books st ins) = st
            /\ (List.length (pending (search_books st ins)) <= List.length ins)%nat).
  { clear ins. induction n as [| n IH]; intros [| line rest] Hn;
      try (simpl; split; auto; simpl in Hn; lia).
    simpl in Hn. assert (Hrest : (List.length rest <= n)%nat) by lia.
    destruct (IH rest Hrest) as [IHdb IHlen].
    simpl. destruct (cancel_operation _); [ simpl; auto | ].
    destruct (is_empty _); [ simpl; split; auto | ].
    assert (Htwo : forall rest', (List.length rest' < List.length rest)%nat ->
              db (search_books st rest') = st
              /\ (List.length (pending (search_books st rest'))
                  <= S (List.length rest))%nat).
    { intros rest' Hlt. destruct (IH rest') as [H1 H2]; [ lia | ].
      split; [ assumption | lia ]. }
    destruct (PyStr.eqb _ (str "id")).
    { destruct rest as [| line' rest']; [ simpl; auto | ].
      destruct (Htwo rest') as [H1 H2]; [ simpl; lia | ].
      branch; split; auto; simpl in *; lia. }
    destruct (PyStr.eqb _ (str "title")).
    { destruct rest as [| line' rest']; [ simpl; auto | ].
      destruct (Htwo rest') as [H1 H2]; [ simpl; lia | ].
      branch; split; auto; simpl in *; lia. }
    simpl. split; auto. }
  destruct (H (List.length ins) ins (le_n _)) as [H1 H2]. repeat split; auto.
Qed.

Lemma reads_view_all_books : reads view_all_books (fun _ _ => True).
Proof. intros st ins. simpl. repeat split; auto. Qed.

Lemma reads_input prompt : reads (input prompt) (fun _ _ => True).
Proof. intros st [| line rest]; simpl; repeat split; auto. Qed.

(** ** Every workflow executes at most one statement *)

(** A block that reads, then a block that writes at most once. *)
Lemma bind_writes (A : Type) (m : M A) (Q : store -> A -> Prop)
  (k : A -> M unit) st ins :
  reads m Q ->
  (forall a ins', Q st a ->
     mutation st (db (k a st ins'))
     /\ (List.length (pending (k a st ins')) <= List.length ins')%nat) ->
  mutation st (db (bind m k st ins))
  /\ (List.length (pending (bind m k st ins)) <= List.length ins)%nat.
Proof.
  intros Hm Hk. destruct (Hm st ins) as (Hdb & Hlen & Hval).
  unfold bind. destruct (ctl (m st ins)) as [a | | e] eqn:E; simpl.
  - rewrite Hdb. destruct (Hk a (pending (m st ins)) (Hval a eq_refl)).
    split; [ assumption | lia ].
  - rewrite Hdb. split; [ constructor | assumption ].
  - rewrite Hdb. split; [ constructor | assumption ].
Qed.

(** Unfold the straight-line blocks and split on their tests. *)
Ltac run_block :=
  unfold bind, call, update_qty_statement, insert_author, insert_book,
    execute, commit_and_print, print, show, stop, raise, cancelled, say,
    emit, ret, input;
  branch.

Ltac writes_loop ins :=
  intros st ins; induction ins as [| line rest IH];
  [ simpl; split; [ apply mut_none | auto ]
  | destruct IH as (IHmut & IHlen); branch; run_block;
    (split; [ | simpl; try lia ]);
    try assumption; try apply mut_none ].

Lemma writes_update_qty book_id : writes_once (update_qty book_id).
Proof. writes_loop ins. apply mut_set_qty. Qed.

Lemma writes_update_title book_id : writes_once (update_title book_id).
Proof. writes_loop ins. apply mut_set_title. Qed.

Lemma writes_update_authorid book_id : writes_once (update_authorid book_id).
Proof. writes_loop ins. apply mut_set_authorID. assumption. Qed.

Lemma writes_confirm_delete_book book_id :
  writes_once (confirm_delete_book book_id).
Proof. writes_loop ins. apply mut_delete_book. Qed.

(** The author is deleted only from a store where no book names it. *)
Lemma writes_confirm_delete_author author_id st ins :
  Sql.books_by_author st author_id = [] ->
  mutation st (db (confirm_delete_author author_id st ins))
  /\ (List.length (pending (confirm_delete_author author_id st ins))
      <= List.length ins)%nat.
Proof.
  intros Hnone. induction ins as [| line rest IH];
    [ simpl; split; [ apply mut_none | auto ] | ].
  destruct IH as (IHmut & IHlen). branch; run_block;
    (split; [ | simpl; try lia ]); try assumption; try apply mut_none.
  apply mut_delete_author. assumption.
Qed.

Ltac after_reads lemma :=
  eapply bind_writes; [ apply lemma | ]; cbv beta.

Ltac finish_block :=
  run_block;
  try match goal with
      | H : ctl (mkResult _ _ _ _) = _ |- _ => simpl in H; discriminate H
      end;
  (split; [ | simpl; try lia ]); try apply mut_none.

Lemma writes_add_author : writes_once add_author.
Proof.
  intros st ins. unfold add_author.
  after_reads reads_new_author_id. intros author_id ins1 [Hrange Hnew].
  after_reads reads_input. intros line ins2 _.
  destruct (is_empty _); [ finish_block | ].
  after_reads reads_input. intros line' ins3 _.
  destruct (is_empty _); [ finish_block | ].
  finish_block. eapply mut_insert_author; [ | eassumption ]. assumption.
Qed.

Lemma writes_add_book : writes_once add_book.
Proof.
  intros st ins. unfold add_book.
  after_reads reads_new_book_id. intros book_id ins1 [Hrange Hnew].
  after_reads reads_input. intros line ins2 _.
  destruct (cancel_operation _); [ finish_block | ].
  destruct (is_empty _); [ finish_block | ].
  after_reads reads_existing_author_id. intros author_id ins3 Hauthor.
  after_reads reads_new_quantity. intros qty ins4 Hqty.
  finish_block. eapply mut_insert_book; [ | | eassumption ]; assumption.
Qed.

Lemma writes_call m : writes_once m -> writes_once (call m).
Proof.
  intros Hm st ins. destruct (Hm st ins) as [H1 H2].
  unfold call. destruct (ctl (m st ins)); simpl; auto.
Qed.

Lemma writes_reads (m : M unit) Q : reads m Q -> writes_once m.
Proof.
  intros Hm st ins. destruct (Hm st ins) as (Hdb & Hlen & _).
  rewrite Hdb. split; [ apply mut_none | assumption ].
Qed.

Lemma writes_then_stop m : writes_once m -> writes_once (m ;; stop unit).
Proof.
  intros Hm st ins. destruct (Hm st ins) as [H1 H2].
  unfold bind, stop. destruct (ctl (m st ins)); simpl; rewrite ?app_nil_r; auto.
Qed.

(** A fact about a result carries over to it with more printed in front. *)
Ltac under_emit :=
  unfold say, emit; cbn [db pending ctl List.length];
  split; [ assumption | lia ].

Lemma writes_add_book_or_author : writes_once add_book_or_author.
Proof.
  intros st ins. induction ins as [| line rest IH];
    [ simpl; split; [ apply mut_none | auto ] | ].
  destruct IH as [IHmut IHlen]. simpl.
  destruct (cancel_operation _); [ finish_block | ].
  destruct (PyStr.eqb _ (str "book")).
  { destruct (writes_add_book st rest). under_emit. }
  destruct (PyStr.eqb _ (str "author")).
  { destruct (writes_then_stop _ (writes_call _ writes_add_author) st rest).
    under_emit. }
  under_emit.
Qed.


Lemma reads_show e : reads (show e) (fun _ _ => True).
Proof. intros st ins. simpl. repeat split; auto. Qed.


Lemma writes_update_author_details book author :
  writes_once (update_author_details book author).
Proof.
  intros st ins. unfold update_author_details.
  after_reads reads_show. intros _ ins0 _.
  after_reads reads_show. intros _ ins0' _.
  after_reads reads_input. intros line ins1 _.
  destruct (cancel_operation _); [ finish_block | ].
  after_reads reads_input. intros line' ins2 _.
  destruct (cancel_operation _); [ finish_block | ].
  finish_block; apply mut_set_author.
Qed.

Lemma writes_update_field book_id book :
  writes_once (update_field book_id book).
Proof.
  intros st ins. induction ins as [| line rest IH];
    [ simpl; split; [ apply mut_none | auto ] | ].
  destruct IH as [IHmut IHlen]. simpl.
  destruct (cancel_operation _); [ finish_block | ].
  destruct (PyStr.eqb _ (str "qty")).
  { destruct (writes_update_qty book_id st rest). under_emit. }
  destruct (PyStr.eqb _ (str "title")).
  { destruct (writes_update_title book_id st rest). under_emit. }
  destruct (PyStr.eqb _ (str "authorid")).
  { destruct (writes_update_authorid book_id st rest). under_emit. }
  destruct (PyStr.eqb _ (str "author")); [ | under_emit ].
  destruct (Sql.fetchone _) as [author |]; [ | under_emit ].
  destruct (writes_update_author_details book author st rest).
  under_emit.
Qed.

Lemma writes_update_book : writes_once update_book.
Proof.
  intros st ins. unfold update_book.
  after_reads reads_book_to_update. intros selected ins1 _.
  after_reads reads_show. intros _ ins2 _.
  apply writes_update_field.
Qed.

Lemma writes_delete_author : writes_once delete_author.
Proof.
  intros st ins. unfold delete_author.
  after_reads reads_author_to_delete. intros selected ins1 _.
  destruct (Sql.books_by_author st (fst selected)) eqn:Hbooks.
  - after_reads reads_show. intros _ ins2 _.
    apply writes_confirm_delete_author. assumption.
  - finish_block.
Qed.

Lemma writes_delete_book : writes_once delete_book.
Proof.
  intros st ins. unfold delete_book.
  after_reads reads_book_to_delete. intros selected ins1 _.
  after_reads reads_show. intros _ ins2 _.
  apply writes_confirm_delete_book.
Qed.

Lemma writes_delete_book_or_author : writes_once delete_book_or_author.
Proof.
  intros st ins. induction ins as [| line rest IH];
    [ simpl; split; [ apply mut_none | auto ] | ].
  destruct IH as [IHmut IHlen]. simpl.
  destruct (cancel_operation _); [ finish_block | ].
  destruct (is_empty _); [ under_emit | ].
  destruct (PyStr.eqb _ (str "book")).
  { destruct (writes_delete_book st rest). under_emit. }
  destruct (PyStr.eqb _ (str "author")).
  { destruct (writes_then_stop _ (writes_call _ writes_delete_author) st rest).
    under_emit. }
  under_emit.
Qed.

(** A workflow execution is one checked statement, or none. *)
Lemma workflow_step_mutation st st' : workflow_step st st' -> mutation st st'.
Proof.
  intros [st0 ins | st0 ins | st0 ins].
  - apply writes_add_book_or_author.
  - apply writes_update_book.
  - apply writes_delete_book_or_author.
Qed.

(** What the menu selects hands back no more lines than it was given. *)
Lemma menu_action_writes menu workflow :
  menu_action menu = Some workflow -> writes_once workflow.
Proof.
  unfold menu_action. intros H.
  repeat match type of H with
         | (if ?c then _ else _) = _ => destruct c
         end; try discriminate; injection H as <-.
  - apply writes_add_book_or_author.
  - apply writes_update_book.
  - apply writes_delete_book_or_author.
  - apply (writes_reads _ _ reads_search_books).
  - apply (writes_reads _ _ reads_view_all_books).
Qed.

(** ** The tables under the statements *)

Lemma author_exists_iff st k :
  author_exists st k = true <-> In k (map a_id (author st)).
Proof.
  unfold author_exists, Sql.found, Sql.fetchone, Sql.author_by_id.
  induction (author st) as [| a t IH]; simpl.
  - split; [ discriminate | tauto ].
  - destruct (Z.eqb_spec (a_id a) k) as [E | E]; simpl.
    + split; auto.
    + rewrite IH. split; [ auto | intros [H | H]; [ contradiction | assumption ] ].
Qed.

Lemma in_put_row (A : Type) (key : A -> Z) r t x :
  In x (Sql.put_row key r t) <-> x = r \/ In x t.
Proof.
  induction t as [| y t IH]; simpl.
  - intuition.
  - destruct (key r <? key y)%Z; simpl; rewrite ?IH; intuition.
Qed.

Lemma insert_some (A : Type) (key : A -> Z) r t t' :
  Sql.insert key r t = Some t' ->
  t' = Sql.put_row key r t /\ ~ In (key r) (map key t).
Proof.
  unfold Sql.insert. destruct (existsb _ t) eqn:E; [ discriminate | ].
  intros [= <-]. split; [ reflexivity | ].
  intros Hin. apply in_map_iff in Hin. destruct Hin as (x & Hx & Hin).
  assert (existsb (fun x => (key x =? key r)%Z) t = true).
  { apply existsb_exists. exists x. split; [ assumption | apply Z.eqb_eq, Hx ]. }
  congruence.
Qed.

Lemma books_by_author_none st k b :
  Sql.books_by_author st k = [] -> In b (book st) -> b_authorID b <> k.
Proof.
  unfold Sql.books_by_author. intros Hnone Hin E.
  assert (H : In b (filter (fun b => (b_authorID b =? k)%Z) (book st))).
  { apply filter_In. split; [ assumption | apply Z.eqb_eq, E ]. }
  rewrite Hnone in H. destruct H.
Qed.

Lemma map_a_id_put_row a t k :
  In k (map a_id (Sql.put_row a_id a t)) <-> k = a_id a \/ In k (map a_id t).
Proof.
  rewrite !in_map_iff. split.
  - intros (x & <- & Hx). apply in_put_row in Hx.
    destruct Hx as [-> | Hx]; [ left; reflexivity | right; exists x; auto ].
  - intros [-> | (x & <- & Hx)].
    + exists a. split; [ reflexivity | apply in_put_row; auto ].
    + exists x. split; [ reflexivity | apply in_put_row; auto ].
Qed.

Lemma map_a_id_set_author n c k t :
  map a_id (map (fun a => if (a_id a =? k)%Z then mkAuthor (a_id a) n c else a) t)
  = map a_id t.
Proof.
  rewrite map_map. apply map_ext. intros a. destruct (a_id a =? k)%Z; reflexivity.
Qed.

Lemma map_b_id_update (f : Book -> Book) k t :
  (forall b, b_id (f b) = b_id b) ->
  map b_id (map (fun b => if (b_id b =? k)%Z then f b else b) t) = map b_id t.
Proof.
  intros Hf. rewrite map_map. apply map_ext. intros b.
  destruct (b_id b =? k)%Z; [ apply Hf | reflexivity ].
Qed.

(** The books keep their authors and no author id leaves the store. *)
Lemma referential_kept st st' :
  (forall b', In b' (book st') ->
     exists b, In b (book st) /\ b_authorID b' = b_authorID b) ->
  (forall k, In k (map a_id (author st)) -> In k (map a_id (author st'))) ->
  referential st -> referential st'.
Proof.
  intros Hbooks Hauthors Href b' Hb'.
  destruct (Hbooks b' Hb') as (b & Hb & ->).
  apply author_exists_iff, Hauthors, author_exists_iff, Href, Hb.
Qed.

Lemma in_updated (f : Book -> Book) k t b' :
  In b' (map (fun b => if (b_id b =? k)%Z then f b else b) t) ->
  exists b, In b t /\ (b' = b \/ b' = f b).
Proof.
  intros H. apply in_map_iff in H. destruct H as (b & <- & Hb).
  exists b. split; [ assumption | ]. destruct (b_id b =? k)%Z; auto.
Qed.

(** The statement a workflow executes keeps every book's author in the
    store. *)
Lemma mutation_referential st st' :
  mutation st st' -> referential st -> referential st'.
Proof.
  intros Hmut Href.
  destruct Hmut as [ | a t Hr Hins | b t Hr Ha Hins | q k | ti k | na k Ha
                     | n c k | k | k Hnone ].
  - assumption.
  - apply insert_some in Hins. destruct Hins as [-> _].
    apply referential_kept with (st := st); simpl; [ eauto | | assumption ].
    intros k Hk. apply map_a_id_put_row. auto.
  - apply insert_some in Hins. destruct Hins as [-> _].
    intros x Hx. simpl in Hx. apply in_put_row in Hx.
    rewrite author_exists_iff. simpl. apply author_exists_iff.
    destruct Hx as [-> | Hx]; [ assumption | apply Href, Hx ].
  - apply referential_kept with (st := st); simpl; [ | auto | assumption ].
    intros b' Hb'. apply in_updated in Hb'.
    destruct Hb' as (b & Hb & [-> | ->]); eauto.
  - apply referential_kept with (st := st); simpl; [ | auto | assumption ].
    intros b' Hb'. apply in_updated in Hb'.
    destruct Hb' as (b & Hb & [-> | ->]); eauto.
  - intros x Hx. simpl in Hx. apply in_updated in Hx.
    rewrite author_exists_iff. simpl. apply author_exists_iff.
    destruct Hx as (b & Hb & [-> | ->]); [ apply Href, Hb | assumption ].
  - apply referential_kept with (st := st); simpl; [ eauto | | assumption ].
    intros k' Hk'. rewrite map_a_id_set_author. assumption.
  - apply referential_kept with (st := st); simpl; [ | auto | assumption ].
    intros b' Hb'. apply filter_In in Hb'. destruct Hb' as [Hb' _]. eauto.
  - intros x Hx. simpl in Hx. rewrite author_exists_iff. simpl.
    pose proof (books_by_author_none st k x Hnone Hx) as Hne.
    specialize (Href x Hx). apply author_exists_iff, in_map_iff in Href.
    destruct Href as (a & Ha & Hin). apply in_map_iff. exists a.
    split; [ assumption | ]. apply filter_In. split; [ assumption | ].
    apply negb_true_iff, Z.eqb_neq. congruence.
Qed.


(** ** Sequences of workflows and the menu loop *)

Section Invariant.

Variable P : store -> Prop.
Hypothesis P_mutation : forall st st', mutation st st' -> P st -> P st'.

Lemma reachable_invariant st st' : reachable st st' -> P st -> P st'.
Proof.
  intros Hreach HP. induction Hreach as [| st' st'' _ IH Hstep].
  - assumption.
  - apply (P_mutation st' st''); [ apply workflow_step_mutation, Hstep | exact IH ].
Qed.

(** The menu loop never runs out of iterations, and keeps [P]. *)
Lemma main_menu_loop_invariant fuel :
  forall st ins,
    (List.length ins < fuel)%nat -> P st ->
    exists r, main_menu_loop fuel st ins = Some r /\ P (db r).
Proof.
  induction fuel as [| fuel IH]; intros st ins Hlen HP; [ lia | ].
  destruct ins as [| line rest]; simpl.
  - eexists. split; [ reflexivity | exact HP ].
  - destruct (menu_action (strip line)) as [workflow |] eqn:Haction.
    + apply menu_action_writes in Haction.
      destruct (writes_call workflow Haction st rest) as [Hmut Hpending].
      assert (HP' : P (db (call workflow st rest)))
        by (apply (P_mutation st); assumption).
      destruct (ctl (call workflow st rest)) eqn:Hctl;
        try (destruct (IH (db (call workflow st rest))
                          (pending (call workflow st rest)))
               as (r & -> & Hr); [ simpl in Hlen; lia | assumption | ];
             eexists; split; [ reflexivity | exact Hr ]).
      eexists. split; [ reflexivity | exact HP' ].
    + destruct (PyStr.eqb (strip line) (str "0")).
      * eexists. split; [ reflexivity | exact HP ].
      * destruct (IH st rest) as (r & -> & Hr);
          [ simpl in Hlen; lia | assumption | ].
        eexists. split; [ reflexivity | exact Hr ].
Qed.

Lemma main_menu_invariant st ins :
  P st -> exists r, main_menu st ins = Some r /\ P (db r).
Proof. intros HP. apply main_menu_loop_invariant; [ lia | assumption ]. Qed.

End Invariant.

(** The menu loop returns a result on every input. *)
Lemma main_menu_total st ins : exists r, main_menu st ins = Some r.
Proof.
  destruct (main_menu_invariant (fun _ => True) (fun _ _ _ _ => I) st ins I)
    as (r & Hr & _).
  exists r. exact Hr.
Qed.

(** C1.  The referential invariant: from a store in which every book's
    [authorID] is the id of an author of the store, add-book, the authorID
    sub-choice of update-book and delete-author each leave such a store, on
    any input, and so does every sequence of add, update and delete
    workflows and every session of the menu, which always ends. *)
Theorem referential_invariant (st : store) (H : referential st) :
  (forall ins, referential (db (add_book st ins)))
  /\ (forall book_id ins, referential (db (update_authorid book_id st ins)))
  /\ (forall ins, referential (db (delete_author st ins)))
  /\ (forall st', reachable st st' -> referential st')
  /\ (forall ins, exists r, main_menu st ins = Some r /\ referential (db r)).
Proof.
  repeat split.
  - intros ins. apply (mutation_referential st); [ apply writes_add_book | exact H ].
  - intros book_id ins.
    apply (mutation_referential st); [ apply writes_update_authorid | exact H ].
  - intros ins.
    apply (mutation_referential st); [ apply writes_delete_author | exact H ].
  - intros st' Hreach.
    apply (reachable_invariant referential mutation_referential st st' Hreach H).
  - intros ins. apply (main_menu_invariant referential mutation_referential), H.
Qed.

Lemma referential_invariant_witness :
  referential seeded
  /\ ((forall ins, referential (db (add_book seeded ins)))
      /\ (forall book_id ins,
            referential (db (update_authorid book_id seeded ins)))
      /\ (forall ins, referential (db (delete_author seeded ins)))
      /\ (forall st', reachable seeded st' -> referential st')
      /\ (forall ins,
            exists r, main_menu seeded ins = Some r /\ referential (db r))).
Proof.
  assert (H : referential seeded).
  { intros b Hb. simpl in Hb.
    repeat (destruct Hb as [<- | Hb]; [ reflexivity | ]). destruct Hb. }
  split; [ exact H | apply (referential_invariant seeded H) ].
Defined.

(** ** Identifiers *)

Lemma in_lstrip c s : In c (lstrip s) -> In c s.
Proof.
  induction s as [| d s IH]; simpl; [ tauto | ].
  destruct (isspace d); [ auto | ]. simpl. tauto.
Qed.

Lemma in_strip c s : In c (strip s) -> In c s.
Proof.
  unfold strip. intros H. apply in_rev, in_lstrip, in_rev, in_lstrip in H.
  exact H.
Qed.

Lemma strip_ascii s :
  forallb is_ascii s = true -> forallb is_ascii (strip s) = true.
Proof.
  rewrite !forallb_forall. intros H c Hc. apply H, in_strip, Hc.
Qed.

(** On ASCII input the test rejects whatever is not four digits. *)
Lemma four_digit_id_rejects s :
  forallb is_ascii s = true -> four_ascii_digits s = false ->
  four_digit_id s = IdRejected.
Proof.
  intros Hascii Hnot.
  destruct (four_digit_id s) eqn:E; [ reflexivity | | ]; exfalso;
    (destruct (four_digit_id_shape s) as (a & b & c & d & -> & Ha & Hb & Hc & Hd);
     [ congruence | ]);
    simpl in Hascii; repeat (apply andb_prop in Hascii; destruct Hascii as [? Hascii]);
    rewrite isdigit_ascii in Ha, Hb, Hc, Hd by assumption;
    unfold four_ascii_digits in Hnot; simpl in Hnot;
    rewrite Ha, Hb, Hc, Hd in Hnot; discriminate.
Qed.

(** C3, as the specification states it, fails: a line of five characters
    with a leading blank is accepted at the author-id prompt and yields
    1234 with no error message, and four superscript twos, none of them an
    ASCII digit, are not rejected at the book-id prompt: they pass the
    test and the conversion raises [ValueError]. *)
Lemma four_digit_claim_counterexample :
  four_ascii_digits (str " 1234") = false
  /\ new_author_id seeded [str " 1234"]
     = mkResult (Next 1234%Z) seeded
         [Prompt "Enter new 4-digit author ID or 'x' to cancel: "] []
  /\ four_ascii_digits [0xB2; 0xB2; 0xB2; 0xB2]%N = false
  /\ new_book_id seeded [[0xB2; 0xB2; 0xB2; 0xB2]%N]
     = mkResult (Raise ValueError) seeded
         [Prompt "Enter 4-digit book ID or 'x' to cancel: "] [].
Proof. repeat split; vm_compute; reflexivity. Qed.

(** C3, amended.  For every input line of ASCII characters that is not
    the cancellation token once stripped: the loops of add-author and
    add-book accept it if and only if, stripped of surrounding whitespace,
    it consists of exactly four ASCII digits, and then take it as the
    integer these digits denote; otherwise they print the error message and
    prompt again. *)
Theorem four_digit_id_prompt (line : pystr)
  (Hascii : forallb is_ascii line = true)
  (Hline : cancel_operation (strip line) = false) :
  ((exists n, four_digit_id (strip line) = IdValue n)
   <-> four_ascii_digits (strip line) = true)
  /\ (four_ascii_digits (strip line) = true ->
      forall st rest,
        new_author_id st (line :: rest)
        = emit (Prompt "Enter new 4-digit author ID or 'x' to cancel: ")
            (if author_exists st (decimal (strip line))
             then say "An author with that ID already exists. Try another.\n"
                      (new_author_id st rest)
             else ret (decimal (strip line)) st rest)
        /\ new_book_id st (line :: rest)
           = emit (Prompt "Enter 4-digit book ID or 'x' to cancel: ")
               (if Sql.found (Sql.fetchone
                                (Sql.book_by_id st (decimal (strip line))))
                then say "A book with that ID already exists. Please enter a different ID.\n"
                         (new_book_id st rest)
                else ret (decimal (strip line)) st rest))
  /\ (four_ascii_digits (strip line) = false ->
      forall st rest,
        new_author_id st (line :: rest)
        = emit (Prompt "Enter new 4-digit author ID or 'x' to cancel: ")
            (say "Author ID must be a numeric value with exactly 4 digits.\n"
                 (new_author_id st rest))
        /\ new_book_id st (line :: rest)
           = emit (Prompt "Enter 4-digit book ID or 'x' to cancel: ")
               (say "Book ID must be a numeric value with exactly 4 digits.\n"
                    (new_book_id st rest))).
Proof.
  pose proof (strip_ascii line Hascii) as Hstrip.
  split; [ | split ].
  - split.
    + intros [n Hn]. apply (four_digit_id_value _ _ Hn).
    + intros H. exists (decimal (strip line)).
      apply four_ascii_digits_accepted, H.
  - intros H st rest. apply four_ascii_digits_accepted in H.
    simpl. unfold cancel_operation in Hline. rewrite Hline.
    fold (cancel_operation (strip line)). unfold cancel_operation.
    rewrite Hline, H. split; reflexivity.
  - intros H st rest. apply (four_digit_id_rejects _ Hstrip) in H.
    simpl. unfold cancel_operation in Hline. rewrite Hline.
    fold (cancel_operation (strip line)). unfold cancel_operation.
    rewrite Hline, H. split; reflexivity.
Qed.

Lemma four_digit_id_prompt_witness :
  forallb is_ascii (str " 0042 ") = true
  /\ cancel_operation (strip (str " 0042 ")) = false
  /\ four_ascii_digits (strip (str " 0042 ")) = true
  /\ new_author_id seeded [str " 0042 "]
     = mkResult (Next 42%Z) seeded
         [Prompt "Enter new 4-digit author ID or 'x' to cancel: "] [].
Proof.
  split; [ reflexivity | split; [ reflexivity | split; [ reflexivity | ] ] ].
  destruct (four_digit_id_prompt (str " 0042 ") eq_refl eq_refl)
    as (_ & Haccept & _).
  destruct (Haccept eq_refl seeded []) as [-> _]. reflexivity.
Defined.




(** ** The delete-author guard *)

(** An accepted identifier is neither the cancellation token nor blank. *)
Lemma four_digit_id_not_cancel s n :
  four_digit_id s = IdValue n ->
  cancel_operation s = false /\ is_empty s = false.
Proof.
  intros H.
  destruct (four_digit_id_shape s) as (a & b & c & d & -> & _); [ congruence | ].
  split; [ | reflexivity ].
  unfold cancel_operation. simpl. apply andb_false_r.
Qed.

Lemma author_exists_fetch st k :
  author_exists st k = true ->
  exists a, Sql.fetchone (Sql.author_by_id st k) = Some a.
Proof.
  unfold author_exists. destruct (Sql.fetchone _) as [a |]; [ eauto | discriminate ].
Qed.

Lemma books_by_author_some st k b :
  In b (book st) -> b_authorID b = k ->
  exists b' t, Sql.books_by_author st k = b' :: t.
Proof.
  intros Hin Hk. destruct (Sql.books_by_author st k) as [| b' t] eqn:E; [ | eauto ].
  exfalso. apply (books_by_author_none st k b E Hin Hk).
Qed.

(** C4.  When the line typed at the prompt of delete-author is accepted as
    the id of an author of the store that at least one book names, the
    workflow prints the two lines that report the dependency and returns:
    the store, hence the author and every book that names it, is as
    before, no confirmation prompt is shown, no further line is read and
    no DELETE is executed.  The same holds when the workflow is entered
    through the choice [author] of delete_book_or_author. *)
Theorem delete_author_guard (st : store) (line : pystr) (a : Z)
  (rest : list pystr)
  (Hid : four_digit_id (strip line) = IdValue a)
  (Hauthor : author_exists st a = true)
  (Hbooks : exists b, In b (book st) /\ b_authorID b = a) :
  delete_author st (line :: rest)
  = mkResult Return st
      [Prompt "Enter the 4-digit ID of the author to delete (or 'x' to cancel): ";
       Print "This author has books associated with them.";
       Print "Please delete those books first.\n"]
      rest
  /\ delete_book_or_author st (str "author" :: line :: rest)
     = mkResult Return st
         [Prompt "What would you like to delete? ('Book' or 'Author' or 'x' to cancel): ";
          Prompt "Enter the 4-digit ID of the author to delete (or 'x' to cancel): ";
          Print "This author has books associated with them.";
          Print "Please delete those books first.\n"]
         rest.
Proof.
  destruct (four_digit_id_not_cancel _ _ Hid) as [Hcancel Hblank].
  destruct (author_exists_fetch st a Hauthor) as [row Hrow].
  destruct Hbooks as (b & Hb & Hba).
  destruct (books_by_author_some st a b Hb Hba) as (b' & t & Hsome).
  assert (H : delete_author st (line :: rest)
              = mkResult Return st
                  [Prompt "Enter the 4-digit ID of the author to delete (or 'x' to cancel): ";
                   Print "This author has books associated with them.";
                   Print "Please delete those books first.\n"]
                  rest).
  { unfold delete_author, bind. simpl.
    rewrite Hcancel, Hblank, Hid, Hrow. simpl. rewrite Hsome. reflexivity. }
  split; [ exact H | ].
  change (delete_book_or_author st (str "author" :: line :: rest))
    with (emit (Prompt "What would you like to delete? ('Book' or 'Author' or 'x' to cancel): ")
            ((call delete_author ;; stop unit) st (line :: rest))).
  unfold bind, call. rewrite H. reflexivity.
Qed.

Lemma delete_author_guard_witness :
  four_digit_id (strip (str "1290")) = IdValue 1290
  /\ author_exists seeded 1290 = true
  /\ (exists b, In b (book seeded) /\ b_authorID b = 1290%Z)
  /\ db (delete_author seeded [str "1290"; str "yes"]) = seeded
  /\ pending (delete_author seeded [str "1290"; str "yes"]) = [str "yes"].
Proof.
  assert (Hid : four_digit_id (strip (str "1290")) = IdValue 1290)
    by reflexivity.
  assert (Hauthor : author_exists seeded 1290 = true) by reflexivity.
  assert (Hbooks : exists b, In b (book seeded) /\ b_authorID b = 1290%Z).
  { exists (mkBook 3001 (str "A Tale of Two Cities") 1290 30).
    split; [ left; reflexivity | reflexivity ]. }
  split; [ exact Hid | split; [ exact Hauthor | split; [ exact Hbooks | ] ] ].
  destruct (delete_author_guard seeded (str "1290") 1290 [str "yes"]
              Hid Hauthor Hbooks) as [-> _].
  split; reflexivity.
Defined.

(** ** Text fields *)





(** ** The bootstrap *)







(** ** Searching *)









(** ** Cancellation *)

(** C2.  What the code does at two prompts where [x] is typed.  At the
    confirmation prompt of delete-book no cancellation test is made: [x]
    is answered like any unrecognised input, the loop prompts again, and
    the [yes] that follows deletes the book.  At the name and country
    prompts of add-author no test is made either: the author is stored with
    the name and the country [X].  The confirmation prompt of
    delete-author, the sibling loop, does cancel on [x]. *)
Theorem cancel_not_honoured :
  delete_book_or_author seeded [str "book"; str "3001"; str "x"; str "yes"]
  = mkResult Return (Sql.delete_book 3001 seeded)
      [Prompt "What would you like to delete? ('Book' or 'Author' or 'x' to cancel): ";
       Prompt "Enter the 4-digit ID of the book to delete (or 'x' to cancel): ";
       PrintBook "Book selected:"
         (mkBook 3001 (str "A Tale of Two Cities") 1290 30);
       Prompt "Delete this book? (yes/no): ";
       Print "Please type 'yes' or 'no'.\n";
       Prompt "Delete this book? (yes/no): ";
       Print "Book deleted successfully.\n"]
      []
  /\ ~ In (mkBook 3001 (str "A Tale of Two Cities") 1290 30)
          (book (Sql.delete_book 3001 seeded))
  /\ (forall book_id st rest,
        confirm_delete_book book_id st (str "x" :: rest)
        = emit (Prompt "Delete this book? (yes/no): ")
            (say "Please type 'yes' or 'no'.\n"
                 (confirm_delete_book book_id st rest)))
  /\ author
       (db (add_book_or_author seeded
              [str "author"; str "4321"; str "x"; str "X"]))
     = Sql.put_row a_id (mkAuthor 4321 (str "X") (str "X")) (author seeded)
  /\ (forall author_id st rest,
        confirm_delete_author author_id st (str "x" :: rest)
        = mkResult Return st
            [Prompt "Delete this author? (yes/no): ";
             Print "Operation cancelled."]
            rest).
Proof.
  split; [ vm_compute; reflexivity | ].
  split; [ vm_compute; intuition discriminate | ].
  split; [ reflexivity | ].
  split; [ vm_compute; reflexivity | reflexivity ].
Qed.

(** ** Title-casing *)


(** ** The author sub-choice of update-book *)

Lemma set_author_other_rows n c k t i x :
  nth_error t i = Some x -> a_id x <> k ->
  nth_error
    (map (fun a => if (a_id a =? k)%Z then mkAuthor (a_id a) n c else a) t) i
  = Some x.
Proof.
  intros Hx Hne. rewrite nth_error_map, Hx. simpl.
  destruct (Z.eqb_spec (a_id x) k); [ contradiction | reflexivity ].
Qed.


(** The sub-choice leaves the store as it is or executes its one UPDATE. *)
Lemma update_author_details_db b a st ins :
  db (update_author_details b a st ins) = st
  \/ exists new_name new_country,
       db (update_author_details b a st ins)
       = Sql.set_author new_name new_country (b_authorID b) st.
Proof.
  unfold update_author_details, bind, input. simpl.
  destruct ins as [| name_line ins]; [ left; reflexivity | ]. simpl.
  destruct (cancel_operation (strip name_line)); [ left; reflexivity | ].
  simpl. destruct ins as [| country_line ins]; [ left; reflexivity | ]. simpl.
  destruct (cancel_operation (strip country_line)); [ left; reflexivity | ].
  right. simpl. eauto.
Qed.


(** ** The primary key *)

Lemma nodup_put_row (A : Type) (key : A -> Z) r t :
  ~ In (key r) (map key t) -> NoDup (map key t) ->
  NoDup (map key (Sql.put_row key r t)).
Proof.
  induction t as [| x t IH]; simpl; intros Hnew Hnd.
  - constructor; [ tauto | constructor ].
  - destruct (key r <? key x)%Z; simpl.
    + constructor; assumption.
    + inversion Hnd as [| k l Hnotin Hnd' E]. subst k l.
      constructor.
      * intros Hin. apply in_map_iff in Hin. destruct Hin as (y & Ey & Hy).
        apply in_put_row in Hy. destruct Hy as [-> | Hy].
        -- apply Hnew. left. symmetry. exact Ey.
        -- apply Hnotin. rewrite <- Ey. apply in_map, Hy.
      * apply IH; [ tauto | assumption ].
Qed.

Lemma nodup_filter_keys (A : Type) (key : A -> Z) (p : A -> bool) t :
  NoDup (map key t) -> NoDup (map key (filter p t)).
Proof.
  induction t as [| x t IH]; simpl; intros Hnd; [ constructor | ].
  inversion Hnd as [| k l Hnotin Hnd' E]. subst k l.
  destruct (p x); simpl; [ | apply IH, Hnd' ].
  constructor; [ | apply IH, Hnd' ].
  intros Hin. apply Hnotin. apply in_map_iff in Hin.
  destruct Hin as (y & Ey & Hy). apply filter_In in Hy.
  rewrite <- Ey. apply in_map, Hy.
Qed.

(** The statement a workflow executes keeps the ids of each table
    distinct. *)
Lemma mutation_primary_keys st st' :
  mutation st st' -> primary_keys st -> primary_keys st'.
Proof.
  intros Hmut [Hb Ha]. unfold primary_keys.
  destruct Hmut as [ | a t Hr Hins | b t Hr Hex Hins | q k | ti k | na k Hex
                     | n c k | k | k Hnone ]; simpl.
  - split; assumption.
  - apply insert_some in Hins. destruct Hins as [-> Hnew].
    split; [ assumption | apply nodup_put_row; assumption ].
  - apply insert_some in Hins. destruct Hins as [-> Hnew].
    split; [ apply nodup_put_row; assumption | assumption ].
  - rewrite (map_b_id_update (fun b => mkBook (b_id b) (b_title b) (b_authorID b) q))
      by reflexivity.
    split; assumption.
  - rewrite (map_b_id_update (fun b => mkBook (b_id b) ti (b_authorID b) (b_qty b)))
      by reflexivity.
    split; assumption.
  - rewrite (map_b_id_update (fun b => mkBook (b_id b) (b_title b) na (b_qty b)))
      by reflexivity.
    split; assumption.
  - rewrite map_a_id_set_author. split; assumption.
  - split; [ apply nodup_filter_keys, Hb | assumption ].
  - split; [ assumption | apply nodup_filter_keys, Ha ].
Qed.

Lemma seeded_primary_keys : primary_keys seeded.
Proof.
  split; simpl;
    repeat (constructor; [ simpl; intuition discriminate | ]); constructor.
Qed.

(** Every store a session reaches from the sample store has distinct ids. *)
Lemma reachable_primary_keys st :
  reachable seeded st -> primary_keys st.
Proof.
  intros H.
  apply (reachable_invariant primary_keys mutation_primary_keys seeded st H).
  apply seeded_primary_keys.
Qed.

(** ** Scenarios of the specification, run on the model *)

(** A session on the sample store: deleting author 1290 is refused while
    book 3001 names it; the book is then deleted, and the author after
    it. *)
Example scenario_delete_author_after_book :
  option_map (fun r => (ctl r,
                        map b_id (book (db r)),
                        map a_id (author (db r)),
                        pending r))
    (main_menu seeded
       [str "3"; str "author"; str "1290";
        str "3"; str "book"; str "3001"; str "yes";
        str "3"; str "author"; str "1290"; str "yes";
        str "0"])
  = Some (Next tt,
          [3002; 3003; 3004; 3005]%Z,
          [2356; 5620; 6380; 8937]%Z,
          []).
Proof. vm_compute. reflexivity. Qed.

(** Search by id on the sample store shows the one record with that id. *)
Example scenario_search_by_id :
  search_books seeded [str "id"; str "3001"]
  = mkResult Return seeded
      [Prompt "Search by ID or title? (type 'id' or 'title', or 'x' to cancel): ";
       Prompt "Enter the 4-digit book ID (or 'x' to cancel): ";
       PrintBook "Book found:"
         (mkBook 3001 (str "A Tale of Two Cities") 1290 30)]
      [].
Proof. vm_compute. reflexivity. Qed.

(** Add-book with an author id that no author has prompts again and
    stores nothing until an existing id is typed. *)
Example scenario_orphan_author_refused :
  let r := add_book_or_author seeded
             [str "book"; str "4001"; str "Emma"; str "9999"; str "9999"] in
  ctl r = Raise EOFError /\ db r = seeded
  /\ map b_authorID
       (book (db (add_book_or_author seeded
                    [str "book"; str "4001"; str "Emma"; str "9999";
                     str "1290"; str "3"])))
     = [1290; 8937; 2356; 6380; 5620; 1290]%Z.
Proof. vm_compute. repeat split; reflexivity. Qed.

(** The quantity sub-choice of update-book refuses -5 and prompts again;
    the quantity written is the next valid one. *)
Example scenario_negative_quantity_refused :
  update_book seeded [str "3001"; str ""; str "-5"; str "7"]
  = mkResult Return (Sql.set_qty 7 3001 seeded)
      [Prompt "Enter the ID of the book to update (or 'x' to cancel): ";
       PrintBook "Current book details:"
         (mkBook 3001 (str "A Tale of Two Cities") 1290 30);
       Prompt "What would you like to update? (qty/title/authorID/author) [default is qty, 'x' to cancel]: ";
       Prompt "Enter new quantity (or 'x' to cancel): ";
       Print "Quantity cannot be negative.\n";
       Prompt "Enter new quantity (or 'x' to cancel): ";
       Print "Quantity updated successfully.\n"]
      [].
Proof. vm_compute. reflexivity. Qed.

(** * Beyond the claims: what every run accounts for *)

#[local] Arguments emit : simpl never.
#[local] Arguments say : simpl never.
#[local] Arguments cancelled : simpl never.
#[local] Arguments raise : simpl never.
#[local] Arguments ret : simpl never.
#[local] Arguments stop : simpl never.
#[local] Arguments bind : simpl never.
#[local] Arguments call : simpl never.
#[local] Arguments input : simpl never.
#[local] Arguments show : simpl never.
#[local] Arguments print : simpl never.
#[local] Arguments execute : simpl never.
#[local] Arguments commit_and_print : simpl never.
#[local] Arguments success_message : simpl never.
#[local] Arguments cancel_message : simpl never.
#[local] Arguments prints : simpl never.
#[local] Arguments add_author : simpl never.
#[local] Arguments add_book : simpl never.
#[local] Arguments update_author_details : simpl never.
#[local] Arguments update_book : simpl never.
#[local] Arguments delete_author : simpl never.
#[local] Arguments delete_book : simpl never.
#[local] Arguments view_all_books : simpl never.

Lemma prints_app which t1 t2 :
  prints which (t1 ++ t2) = (prints which t1 || prints which t2)%bool.
Proof. apply existsb_app. Qed.

Lemma prints_cons which e t :
  prints which (e :: t) = (prints which [e] || prints which t)%bool.
Proof. apply (prints_app which [e] t). Qed.

Lemma explained_more (A : Type) ins ins' (r : result A) :
  incl ins ins' -> explained ins r -> explained ins' r.
Proof.
  intros Hincl H e He. specialize (H e He). destruct e; auto.
  - destruct H as (line & Hin & Hl). exists line. auto.
  - destruct H as (line & q & Hin & Hl). exists line, q. auto.
Qed.

(** ** Blocks that ask *)

Lemma asks_weaken (A : Type) (Q Q' : A -> Prop) st ins ins' (r : result A) :
  (forall a, Q a -> Q' a) -> incl ins ins' ->
  asks Q st ins r -> asks Q' st ins' r.
Proof.
  intros HQ Hincl (Hdb & Hpend & Hsucc & Hval & Hexn).
  repeat split; auto.
  - intros x Hx. apply Hincl, Hpend, Hx.
  - apply HQ, (Hval a H).
  - apply (Hval a H).
  - apply (explained_more A ins ins' r Hincl Hexn).
Qed.

Lemma asks_next_line (A : Type) (Q Q' : A -> Prop) st line rest
  (r : result A) :
  (forall a, Q a -> Q' a) ->
  asks Q st rest r -> asks Q' st (line :: rest) r.
Proof. intros HQ. apply asks_weaken; [ exact HQ | apply incl_tl, incl_refl ]. Qed.

Lemma asks_emit (A : Type) (Q : A -> Prop) st ins e (r : result A) :
  prints success_message [e] = false -> prints cancel_message [e] = false ->
  asks Q st ins r -> asks Q st ins (emit e r).
Proof.
  intros Hs Hc (Hdb & Hpend & Hsucc & Hval & Hexn).
  unfold asks, emit. simpl. repeat split; auto.
  - rewrite prints_cons, Hs, Hsucc. reflexivity.
  - apply (Hval a H).
  - rewrite prints_cons, Hc. apply (Hval a H).
Qed.

Lemma asks_say (A : Type) (Q : A -> Prop) st ins text (r : result A) :
  success_message text = false -> cancel_message text = false ->
  asks Q st ins r -> asks Q st ins (say text r).
Proof.
  intros Hs Hc. apply asks_emit; unfold prints; simpl;
    [ rewrite Hs | rewrite Hc ]; reflexivity.
Qed.

Lemma asks_cancelled (A : Type) (Q : A -> Prop) st ins rest :
  incl rest ins -> asks Q st ins (cancelled A st rest).
Proof.
  intros Hincl. unfold asks, cancelled, say, emit, stop. simpl.
  repeat split; auto; try discriminate; intros e He; discriminate He.
Qed.

Lemma asks_ret (A : Type) (Q : A -> Prop) st ins rest (a : A) :
  incl rest ins -> Q a -> asks Q st ins (ret a st rest).
Proof.
  intros Hincl HQ. unfold asks, ret. simpl.
  repeat split; auto; try (injection H as <-; exact HQ);
    intros e He; discriminate He.
Qed.

Lemma asks_eof (A : Type) (Q : A -> Prop) st ins :
  asks Q st ins (raise A EOFError st []).
Proof.
  unfold asks, raise. simpl. repeat split; auto; try discriminate.
  - intros x Hx. destruct Hx.
  - intros e [= <-]. reflexivity.
Qed.

(** A string that passes [isdigit] and not [int] holds a character
    outside ASCII. *)
Lemma value_error_not_ascii line :
  four_digit_id (strip line) = IdValueError -> forallb is_ascii line = false.
Proof.
  intros H. destruct (forallb is_ascii line) eqn:E; [ | reflexivity ].
  apply strip_ascii in E.
  destruct (four_ascii_digits (strip line)) eqn:F.
  - rewrite (four_ascii_digits_accepted _ F) in H. discriminate.
  - rewrite (four_digit_id_rejects _ E F) in H. discriminate.
Qed.

Lemma asks_value_error (A : Type) (Q : A -> Prop) st line rest :
  four_digit_id (strip line) = IdValueError ->
  asks Q st (line :: rest) (raise A ValueError st rest).
Proof.
  intros H. unfold asks, raise. simpl. repeat split; auto; try discriminate.
  - apply incl_tl, incl_refl.
  - intros e [= <-]. exists line. split; [ left; reflexivity | ].
    apply value_error_not_ascii, H.
Qed.

(** One iteration of a loop that asks: the prompt, then what the tests
    select. *)
Ltac asks_branch IH :=
  repeat lazymatch goal with
    | |- asks _ _ _ (emit _ _) =>
      apply asks_emit; [ reflexivity | reflexivity | ]
    | |- asks _ _ _ (say _ _) =>
      apply asks_say; [ reflexivity | reflexivity | ]
    | |- asks _ _ _ (cancelled _ _ _) =>
      apply asks_cancelled; apply incl_tl, incl_refl
    | |- asks _ _ _ (raise _ EOFError _ _) => apply asks_eof
    | |- asks _ _ _ (raise _ ValueError _ _) =>
      apply asks_value_error; assumption
    | |- asks _ _ (_ :: _) _ =>
      apply (asks_next_line _ _ _ _ _ _ _ (fun a H => H)); exact IH
    end.

Ltac asks_loop ins :=
  intros st ins; induction ins as [| line rest IH];
  [ simpl; asks_branch I
  | simpl; apply asks_emit; [ reflexivity | reflexivity | ];
    branch; asks_branch IH ].

Lemma asks_new_author_id :
  forall st ins,
    asks (fun a => id_range a /\ author_exists st a = false) st ins
         (new_author_id st ins).
Proof.
  asks_loop ins.
  apply asks_ret; [ apply incl_tl, incl_refl | ].
  split; [ eapply four_digit_id_range; eassumption | assumption ].
Qed.

Lemma asks_new_book_id :
  forall st ins,
    asks (fun k => id_range k /\ Sql.fetchone (Sql.book_by_id st k) = None)
         st ins (new_book_id st ins).
Proof.
  asks_loop ins.
  apply asks_ret; [ apply incl_tl, incl_refl | ].
  split; [ eapply four_digit_id_range; eassumption | ].
  destruct (Sql.fetchone _); [ discriminate | reflexivity ].
Qed.

Lemma asks_existing_author_id :
  forall st ins,
    asks (fun a => author_exists st a = true) st ins
         (existing_author_id st ins).
Proof.
  asks_loop ins. apply asks_ret; [ apply incl_tl, incl_refl | assumption ].
Qed.

(** The quantity comes from one of the lines and is not negative. *)
Lemma asks_new_quantity :
  forall st ins,
    asks (fun q => (0 <= q)%Z
                   /\ exists line,
                        In line ins /\ PyStr.int (strip line) = Some q)
         st ins (new_quantity st ins).
Proof.
  intros st ins; induction ins as [| line rest IH];
    [ simpl; asks_branch I | ].
  assert (IH' : asks (fun q => (0 <= q)%Z
                        /\ exists l, In l (line :: rest)
                                     /\ PyStr.int (strip l) = Some q)
                     st (line :: rest) (new_quantity st rest)).
  { revert IH. apply asks_next_line. intros q (Hq & l & Hl & Hint).
    split; [ exact Hq | ]. exists l. split; [ right; exact Hl | exact Hint ]. }
  simpl; apply asks_emit; [ reflexivity | reflexivity | ].
  branch;
    repeat first
      [ apply asks_say; [ reflexivity | reflexivity | ]
      | apply asks_cancelled; apply incl_tl, incl_refl
      | exact IH' ].
  apply asks_ret; [ apply incl_tl, incl_refl | ].
  split; [ apply Z.leb_le; assumption | ].
  exists line. split; [ left; reflexivity | assumption ].
Qed.

Lemma asks_book_to_update :
  forall st ins,
    asks (fun sel =>
            Sql.fetchone (Sql.book_by_id st (fst sel)) = Some (snd sel))
         st ins (book_to_update st ins).
Proof.
  asks_loop ins. apply asks_ret; [ apply incl_tl, incl_refl | assumption ].
Qed.

Lemma asks_book_to_delete :
  forall st ins,
    asks (fun sel =>
            Sql.fetchone (Sql.book_by_id st (fst sel)) = Some (snd sel))
         st ins (book_to_delete st ins).
Proof.
  asks_loop ins. apply asks_ret; [ apply incl_tl, incl_refl | assumption ].
Qed.

Lemma asks_author_to_delete :
  forall st ins,
    asks (fun sel =>
            Sql.fetchone (Sql.author_by_id st (fst sel)) = Some (snd sel))
         st ins (author_to_delete st ins).
Proof.
  asks_loop ins. apply asks_ret; [ apply incl_tl, incl_refl | assumption ].
Qed.

(** [input]: the line it yields is the first of the lines given. *)
Lemma asks_input prompt st ins :
  asks (fun line => exists rest, ins = line :: rest) st ins
       (input prompt st ins).
Proof.
  unfold asks, input, explained. destruct ins as [| line rest]; simpl;
    repeat split; auto; try discriminate;
    try apply incl_refl; try (apply incl_tl, incl_refl);
    try (injection H as <-; eauto);
    intros e He; try discriminate He; injection He as <-; reflexivity.
Qed.

Lemma asks_show e st ins :
  prints success_message [e] = false -> prints cancel_message [e] = false ->
  asks (fun _ => True) st ins (show e st ins).
Proof.
  intros Hs Hc. unfold asks, show, explained. simpl.
  repeat split; auto; try discriminate; try apply incl_refl.
Qed.

(** ** Blocks that execute at most one statement *)

Lemma accounts_weaken st ins ins' (r : result unit) :
  incl ins ins' -> accounts st ins r -> accounts st ins' r.
Proof.
  intros Hincl [Hpend H]. split.
  - intros x Hx. apply Hincl, Hpend, Hx.
  - destruct H as [(Hdb & Hs & He) | H]; [ left | right; exact H ].
    repeat split; auto. apply (explained_more unit ins ins' r Hincl He).
Qed.

Lemma accounts_next_line st line rest (r : result unit) :
  accounts st rest r -> accounts st (line :: rest) r.
Proof. apply accounts_weaken, incl_tl, incl_refl. Qed.

Lemma accounts_asks (Q : unit -> Prop) st ins (r : result unit) :
  asks Q st ins r -> accounts st ins r.
Proof.
  intros (Hdb & Hpend & Hs & _ & He). split; [ exact Hpend | left; auto ].
Qed.

Lemma accounts_emit st ins e (r : result unit) :
  prints success_message [e] = false -> prints cancel_message [e] = false ->
  accounts st ins r -> accounts st ins (emit e r).
Proof.
  intros Hs Hc [Hpend H]. split; [ exact Hpend | ].
  destruct H as [(Hdb & Hsucc & He) | (msg & trace & Heff & Hout & H1 & H2 & H3)].
  - left. unfold emit. simpl. repeat split; auto.
    rewrite prints_cons, Hs, Hsucc. reflexivity.
  - right. exists msg, (e :: trace). unfold emit. simpl.
    repeat split; auto.
    + rewrite Hout. reflexivity.
    + rewrite prints_cons, Hs, H1. reflexivity.
    + rewrite prints_cons, Hc, H2. reflexivity.
Qed.

Lemma accounts_say st ins text (r : result unit) :
  success_message text = false -> cancel_message text = false ->
  accounts st ins r -> accounts st ins (say text r).
Proof.
  intros Hs Hc. apply accounts_emit; unfold prints; simpl;
    [ rewrite Hs | rewrite Hc ]; reflexivity.
Qed.

Lemma accounts_cancelled st ins rest :
  incl rest ins -> accounts st ins (cancelled unit st rest).
Proof. intros H. apply (accounts_asks (fun _ => True)), asks_cancelled, H. Qed.

Lemma accounts_eof st ins : accounts st ins (raise unit EOFError st []).
Proof. apply (accounts_asks (fun _ => True)), asks_eof. Qed.

Lemma accounts_value_error st line rest :
  four_digit_id (strip line) = IdValueError ->
  accounts st (line :: rest) (raise unit ValueError st rest).
Proof. intros H. apply (accounts_asks (fun _ => True)), asks_value_error, H. Qed.

(** A message that reports no success, then [return]. *)
Lemma accounts_print_stop st ins rest text :
  success_message text = false -> incl rest ins ->
  accounts st ins ((print text ;; stop unit) st rest).
Proof.
  intros Hs Hincl. split; [ exact Hincl | left ].
  unfold bind, print, stop, explained. simpl. repeat split; auto.
  - unfold prints. simpl. rewrite Hs. reflexivity.
  - intros e He. discriminate He.
Qed.

(** First a block that asks, then a block that accounts. *)
Lemma accounts_bind (A : Type) (Q : A -> Prop) (m : M A) (k : A -> M unit)
  st ins ins' :
  incl ins' ins ->
  asks Q st ins' (m st ins') ->
  (forall a ins'', Q a -> incl ins'' ins -> accounts st ins (k a st ins'')) ->
  accounts st ins (bind m k st ins').
Proof.
  intros Hincl (Hdb & Hpend & Hs & Hval & He) Hk.
  assert (Hpend' : incl (pending (m st ins')) ins)
    by (intros x Hx; apply Hincl, Hpend, Hx).
  unfold bind. destruct (ctl (m st ins')) as [a | | e] eqn:E.
  - destruct (Hval a eq_refl) as [HQ Hc]. rewrite Hdb.
    destruct (Hk a (pending (m st ins')) HQ Hpend') as [Hp H].
    split; [ exact Hp | ].
    destruct H as [(Hdb' & Hs' & He') | (msg & trace & Heff & Hout & H1 & H2 & H3)].
    + left. simpl. split; [ exact Hdb' | split ].
      * rewrite prints_app, Hs, Hs'. reflexivity.
      * intros e Hctl. apply (He' e Hctl).
    + right. exists msg, (out (m st ins') ++ trace). simpl.
      split; [ exact Heff | split; [ | split; [ | split ] ] ].
      * rewrite Hout. apply app_assoc.
      * rewrite prints_app, Hs, H1. reflexivity.
      * rewrite prints_app, Hc, H2. reflexivity.
      * exact H3.
  - split; [ exact Hpend' | left ]. simpl.
    split; [ exact Hdb | split; [ exact Hs | ] ].
    intros e He'. discriminate He'.
  - split; [ exact Hpend' | left ]. simpl.
    split; [ exact Hdb | split; [ exact Hs | ] ].
    intros e' He'. simpl in He'. injection He' as <-.
    apply (explained_more A ins' ins (m st ins') Hincl He e E).
Qed.

(** A statement that cannot fail, its report, then [return]. *)
Lemma accounts_done (f : store -> store) msg st ins rest :
  effect st msg (f st) -> incl rest ins ->
  accounts st ins ((execute f ;; commit_and_print msg ;; stop unit) st rest).
Proof.
  intros Heff Hincl. split; [ exact Hincl | right ].
  exists msg, []. unfold bind, execute, commit_and_print, print, stop. simpl.
  repeat split; auto.
Qed.

(** The pre-check makes the INSERT succeed. *)
Lemma insert_unused (A : Type) (key : A -> Z) r t :
  filter (fun x => (key x =? key r)%Z) t = [] ->
  Sql.insert key r t = Some (Sql.put_row key r t).
Proof.
  intros H. unfold Sql.insert.
  destruct (existsb (fun x => (key x =? key r)%Z) t) eqn:E; [ | reflexivity ].
  apply existsb_exists in E. destruct E as (x & Hx & Hk).
  assert (Hin : In x (filter (fun x => (key x =? key r)%Z) t))
    by (apply filter_In; auto).
  rewrite H in Hin. destruct Hin.
Qed.

Lemma fetchone_none (A : Type) (rows : list A) :
  Sql.fetchone rows = None -> rows = [].
Proof. destruct rows; [ reflexivity | discriminate ]. Qed.

Lemma author_absent st k :
  author_exists st k = false -> Sql.author_by_id st k = [].
Proof.
  unfold author_exists. intros H. apply fetchone_none.
  destruct (Sql.fetchone _); [ discriminate | reflexivity ].
Qed.

Lemma accounts_insert_author st ins rest a :
  id_range (a_id a) -> author_exists st (a_id a) = false ->
  a_name a <> [] -> a_country a <> [] -> incl rest ins ->
  accounts st ins
    ((insert_author a ;; commit_and_print "Author added successfully.\n")
       st rest).
Proof.
  intros Hr Hnew Hn Hc Hincl.
  pose proof (insert_unused Author a_id a (author st)
                (author_absent st _ Hnew)) as Hins.
  unfold bind, insert_author. rewrite Hins.
  split; [ exact Hincl | right ].
  exists "Author added successfully.\n"%string, [].
  unfold commit_and_print, print. simpl. repeat split; auto.
  eapply eff_insert_author; eassumption.
Qed.

Lemma accounts_insert_book st ins rest b :
  id_range (b_id b) -> Sql.fetchone (Sql.book_by_id st (b_id b)) = None ->
  b_title b <> [] -> cancel_operation (b_title b) = false ->
  author_exists st (b_authorID b) = true ->
  (0 <= b_qty b)%Z ->
  (exists line, In line ins /\ PyStr.int (strip line) = Some (b_qty b)) ->
  incl rest ins ->
  accounts st ins
    ((insert_book b ;; commit_and_print "Book added successfully.\n" ;;
      stop unit) st rest).
Proof.
  intros Hr Hnew Ht Hx Ha Hq (line & Hline & Hint) Hincl.
  pose proof (insert_unused Book b_id b (book st) (fetchone_none _ _ Hnew))
    as Hins.
  unfold bind, insert_book.
  destruct (Sql.max_integer <? b_qty b)%Z eqn:E.
  - split; [ exact Hincl | left ]. unfold raise, explained. simpl.
    repeat split; auto. intros e He. injection He as <-.
    exists line, (b_qty b). apply Z.ltb_lt in E. auto.
  - rewrite Hins. split; [ exact Hincl | right ].
    exists "Book added successfully.\n"%string, [].
    unfold commit_and_print, print, stop. simpl. repeat split; auto.
    apply Z.ltb_ge in E.
    eapply eff_insert_book; try eassumption. split; assumption.
Qed.

Lemma accounts_update_qty_statement st ins rest new_qty book_id :
  (0 <= new_qty)%Z ->
  (exists line, In line ins /\ PyStr.int (strip line) = Some new_qty) ->
  incl rest ins ->
  accounts st ins
    ((update_qty_statement new_qty book_id ;;
      commit_and_print "Quantity updated successfully.\n" ;; stop unit)
       st rest).
Proof.
  intros Hq (line & Hline & Hint) Hincl.
  unfold bind, update_qty_statement.
  destruct (Sql.max_integer <? new_qty)%Z eqn:E.
  - split; [ exact Hincl | left ]. unfold raise, explained. simpl.
    repeat split; auto. intros e He. injection He as <-.
    exists line, new_qty. apply Z.ltb_lt in E. auto.
  - split; [ exact Hincl | right ].
    exists "Quantity updated successfully.\n"%string, [].
    unfold execute, commit_and_print, print, stop. simpl. repeat split; auto.
    apply Z.ltb_ge in E. apply eff_set_qty. split; assumption.
Qed.

(** One iteration of a loop that ends in a statement. *)
Ltac accounts_branch IH :=
  repeat lazymatch goal with
    | |- accounts _ _ (emit _ _) =>
      apply accounts_emit; [ reflexivity | reflexivity | ]
    | |- accounts _ _ (say _ _) =>
      apply accounts_say; [ reflexivity | reflexivity | ]
    | |- accounts _ _ (cancelled _ _ _) =>
      apply accounts_cancelled; apply incl_tl, incl_refl
    | |- accounts _ _ (raise _ EOFError _ _) => apply accounts_eof
    | |- accounts _ _ (raise _ ValueError _ _) =>
      apply accounts_value_error; assumption
    | |- accounts _ _ (bind (print _) _ _ _) =>
      apply accounts_print_stop; [ reflexivity | apply incl_tl, incl_refl ]
    | |- accounts _ (_ :: _) _ => apply accounts_next_line; exact IH
    end.

Ltac accounts_loop ins :=
  intros st ins; induction ins as [| line rest IH];
  [ simpl; accounts_branch I
  | simpl; apply accounts_emit; [ reflexivity | reflexivity | ];
    branch; accounts_branch IH ].

Lemma is_empty_false s : is_empty s = false -> s <> [].
Proof. destruct s; [ discriminate | discriminate ]. Qed.

Lemma accounts_update_qty book_id :
  forall st ins, accounts st ins (update_qty book_id st ins).
Proof.
  accounts_loop ins.
  apply accounts_update_qty_statement;
    [ apply Z.ltb_ge; assumption | | apply incl_tl, incl_refl ].
  exists line. split; [ left; reflexivity | assumption ].
Qed.

Lemma accounts_update_title book_id :
  forall st ins, accounts st ins (update_title book_id st ins).
Proof.
  accounts_loop ins.
  apply accounts_done; [ | apply incl_tl, incl_refl ].
  apply eff_set_title; [ apply is_empty_false | ]; assumption.
Qed.

Lemma accounts_update_authorid book_id :
  forall st ins, accounts st ins (update_authorid book_id st ins).
Proof.
  accounts_loop ins.
  apply accounts_done; [ | apply incl_tl, incl_refl ].
  apply eff_set_authorID. assumption.
Qed.

Lemma accounts_confirm_delete_book book_id :
  forall st ins, accounts st ins (confirm_delete_book book_id st ins).
Proof.
  accounts_loop ins.
  apply accounts_done; [ apply eff_delete_book | apply incl_tl, incl_refl ].
Qed.

Lemma accounts_confirm_delete_author author_id st :
  Sql.books_by_author st author_id = [] ->
  forall ins, accounts st ins (confirm_delete_author author_id st ins).
Proof.
  intros Hnone ins. induction ins as [| line rest IH];
    [ simpl; accounts_branch I | ].
  simpl; apply accounts_emit; [ reflexivity | reflexivity | ].
  branch; accounts_branch IH.
  apply accounts_done; [ | apply incl_tl, incl_refl ].
  apply eff_delete_author, Hnone.
Qed.

(** ** The workflows *)

Ltac then_asks lemma Hincl :=
  eapply accounts_bind; [ exact Hincl | apply lemma | ]; cbv beta.

Lemma accounts_add_author st ins : accounts st ins (add_author st ins).
Proof.
  unfold add_author.
  then_asks asks_new_author_id (incl_refl ins). intros author_id ins1 [Hr Hnew] H1.
  then_asks asks_input H1. intros line ins2 _ H2.
  destruct (is_empty (title (strip line))) eqn:En;
    [ apply accounts_print_stop; [ reflexivity | exact H2 ] | ].
  then_asks asks_input H2. intros line' ins3 _ H3.
  destruct (is_empty (title (strip line'))) eqn:Ec;
    [ apply accounts_print_stop; [ reflexivity | exact H3 ] | ].
  apply accounts_insert_author; try assumption; apply is_empty_false; assumption.
Qed.

Lemma accounts_add_book st ins : accounts st ins (add_book st ins).
Proof.
  unfold add_book.
  then_asks asks_new_book_id (incl_refl ins). intros book_id ins1 [Hr Hnew] H1.
  then_asks asks_input H1. intros line ins2 _ H2.
  destruct (cancel_operation (strip line)) eqn:Ex;
    [ apply accounts_cancelled, H2 | ].
  destruct (is_empty (strip line)) eqn:Et;
    [ apply accounts_print_stop; [ reflexivity | exact H2 ] | ].
  then_asks asks_existing_author_id H2. intros author_id ins3 Ha H3.
  eapply accounts_bind; [ exact H3 | apply asks_new_quantity | ]; cbv beta.
  intros qty ins4 (Hq & l & Hl & Hint) H4.
  apply accounts_insert_book; try assumption.
  - apply is_empty_false, Et.
  - exists l. split; [ apply H3, Hl | exact Hint ].
Qed.

(** A call of a workflow, then [return]. *)
Lemma accounts_call_stop (m : M unit) st ins rest :
  accounts st ins (m st rest) ->
  accounts st ins ((call m ;; stop unit) st rest).
Proof.
  intros [Hpend H]. unfold bind, call, stop.
  destruct H as [(Hdb & Hs & He) | (msg & trace & Heff & Hout & H1 & H2 & H3)].
  - destruct (ctl (m st rest)) as [[] | | e] eqn:E; simpl; rewrite ?E; simpl;
      (split; [ exact Hpend | left ]);
      (split; [ exact Hdb | split; [ rewrite ?app_nil_r; exact Hs | ] ]);
      intros e' He'; try discriminate He'.
    specialize (He e E). injection He' as <-. exact He.
  - destruct (ctl (m st rest)) as [[] | | e] eqn:E; simpl; rewrite ?E; simpl;
      try (destruct H3; discriminate);
      (split; [ exact Hpend | right ]); exists msg, trace;
      rewrite ?app_nil_r; repeat split; auto.
Qed.

Lemma accounts_add_book_or_author :
  forall st ins, accounts st ins (add_book_or_author st ins).
Proof.
  accounts_loop ins.
  - apply accounts_next_line, accounts_add_book.
  - apply accounts_call_stop, accounts_next_line, accounts_add_author.
Qed.

Lemma accounts_update_author_details book current st ins ins' :
  incl ins' ins ->
  Sql.fetchone (Sql.author_by_id st (b_authorID book)) = Some current ->
  accounts st ins (update_author_details book current st ins').
Proof.
  intros H0 Hcur. unfold update_author_details.
  then_asks asks_show H0; [ reflexivity | reflexivity | ]. intros _ ins1 _ H1.
  then_asks asks_show H1; [ reflexivity | reflexivity | ]. intros _ ins2 _ H2.
  then_asks asks_input H2. intros line ins3 _ H3.
  destruct (cancel_operation (strip line)) eqn:Ex;
    [ apply accounts_cancelled, H3 | ].
  then_asks asks_input H3. intros line' ins4 _ H4.
  destruct (cancel_operation (strip line')) eqn:Ex';
    [ apply accounts_cancelled, H4 | ].
  apply accounts_done; [ | exact H4 ].
  eapply eff_set_author; [ exact Hcur | | ].
  - destruct (is_empty (strip line)) eqn:E;
      [ left; reflexivity | right; apply is_empty_false, E ].
  - destruct (is_empty (strip line')) eqn:E;
      [ left; reflexivity | right; apply is_empty_false, E ].
Qed.

Lemma accounts_update_field book_id book :
  forall st ins, accounts st ins (update_field book_id book st ins).
Proof.
  accounts_loop ins.
  - apply accounts_next_line, accounts_update_qty.
  - apply accounts_next_line, accounts_update_title.
  - apply accounts_next_line, accounts_update_authorid.
  - apply accounts_update_author_details;
      [ apply incl_tl, incl_refl | assumption ].
Qed.

Lemma accounts_update_book st ins : accounts st ins (update_book st ins).
Proof.
  unfold update_book.
  then_asks asks_book_to_update (incl_refl ins). intros selected ins1 _ H1.
  then_asks asks_show H1; [ reflexivity | reflexivity | ]. intros _ ins2 _ H2.
  apply (accounts_weaken st ins2 ins _ H2), accounts_update_field.
Qed.

Lemma accounts_delete_author st ins : accounts st ins (delete_author st ins).
Proof.
  unfold delete_author.
  then_asks asks_author_to_delete (incl_refl ins). intros selected ins1 _ H1.
  destruct (Sql.books_by_author st (fst selected)) eqn:Hbooks.
  - then_asks asks_show H1; [ reflexivity | reflexivity | ]. intros _ ins2 _ H2.
    apply (accounts_weaken st ins2 ins _ H2).
    apply accounts_confirm_delete_author, Hbooks.
  - eapply accounts_bind;
      [ exact H1
      | apply (asks_show (Print "This author has books associated with them."));
        reflexivity
      | ]; cbv beta.
    intros _ ins2 _ H2. apply accounts_print_stop; [ reflexivity | exact H2 ].
Qed.

Lemma accounts_delete_book st ins : accounts st ins (delete_book st ins).
Proof.
  unfold delete_book.
  then_asks asks_book_to_delete (incl_refl ins). intros selected ins1 _ H1.
  then_asks asks_show H1; [ reflexivity | reflexivity | ]. intros _ ins2 _ H2.
  apply (accounts_weaken st ins2 ins _ H2), accounts_confirm_delete_book.
Qed.

Lemma accounts_delete_book_or_author :
  forall st ins, accounts st ins (delete_book_or_author st ins).
Proof.
  accounts_loop ins.
  - apply accounts_next_line, accounts_delete_book.
  - apply accounts_call_stop, accounts_next_line, accounts_delete_author.
Qed.

Lemma prints_book_lines which books :
  prints which (map PrintBookLine books) = false.
Proof. induction books as [| b t IH]; [ reflexivity | exact IH ]. Qed.

Lemma asks_found_books (Q : unit -> Prop) st ins rest books :
  incl rest ins ->
  asks Q st ins
    (mkResult Return st
       (Print "\nBooks found:" :: map PrintBookLine books ++ [Print ""])
       rest).
Proof.
  intros Hincl. unfold asks, explained. simpl.
  repeat split; auto; try discriminate.
  rewrite prints_cons, prints_app, prints_book_lines. reflexivity.
Qed.

(** [search_books] asks, whatever it is given. *)
Lemma asks_search_books st ins :
  asks (fun _ => True) st ins (search_books st ins).
Proof.
  assert (H : forall n ins, (List.length ins <= n)%nat ->
            asks (fun _ : unit => True) st ins (search_books st ins)).
  { clear ins. induction n as [| n IH]; intros [| line rest] Hn;
      try (simpl; asks_branch I; fail); [ simpl in Hn; lia | ].
    simpl in Hn. assert (IHrest := IH rest ltac:(lia)).
    simpl. apply asks_emit; [ reflexivity | reflexivity | ].
    destruct (cancel_operation _); [ asks_branch IHrest | ].
    destruct (is_empty _); [ asks_branch IHrest | ].
    destruct (PyStr.eqb _ (str "id")).
    { destruct rest as [| line' rest']; [ asks_branch I | ].
      assert (IH2 : asks (fun _ : unit => True) st (line :: line' :: rest')
                         (search_books st rest')).
      { apply (asks_weaken unit (fun _ => True) (fun _ => True) st rest');
          [ auto | apply incl_tl, incl_tl, incl_refl
          | apply IH; simpl in Hn; lia ]. }
      apply asks_emit; [ reflexivity | reflexivity | ].
      branch;
        repeat lazymatch goal with
          | |- asks _ _ _ (say _ _) =>
            apply asks_say; [ reflexivity | reflexivity | ]
          | |- asks _ _ _ (cancelled _ _ _) =>
            apply asks_cancelled; apply incl_tl, incl_tl, incl_refl
          | |- asks _ _ _ (search_books _ _) => exact IH2
          end.
      - unfold bind, show, stop, asks, explained. simpl.
        repeat split; auto; try discriminate. apply incl_tl, incl_tl, incl_refl.
      - unfold asks, raise, explained. simpl.
        repeat split; auto; try discriminate;
          [ apply incl_tl, incl_tl, incl_refl | ].
        intros e He. injection He as <-. exists line'.
        split; [ right; left; reflexivity | apply value_error_not_ascii ].
        assumption. }
    destruct (PyStr.eqb _ (str "title")).
    { destruct rest as [| line' rest']; [ asks_branch I | ].
      assert (IH2 : asks (fun _ : unit => True) st (line :: line' :: rest')
                         (search_books st rest')).
      { apply (asks_weaken unit (fun _ => True) (fun _ => True) st rest');
          [ auto | apply incl_tl, incl_tl, incl_refl
          | apply IH; simpl in Hn; lia ]. }
      apply asks_emit; [ reflexivity | reflexivity | ].
      branch;
        repeat lazymatch goal with
          | |- asks _ _ _ (say _ _) =>
            apply asks_say; [ reflexivity | reflexivity | ]
          | |- asks _ _ _ (cancelled _ _ _) =>
            apply asks_cancelled; apply incl_tl, incl_tl, incl_refl
          | |- asks _ _ _ (search_books _ _) => exact IH2
          end.
      apply asks_found_books, incl_tl, incl_tl, incl_refl. }
    asks_branch IHrest. }
  apply (H (List.length ins) ins (le_n _)).
Qed.

Lemma asks_view_all_books st ins :
  asks (fun _ => True) st ins (view_all_books st ins).
Proof.
  unfold asks, view_all_books, explained. simpl.
  repeat split; auto; try discriminate; try apply incl_refl.
  - rewrite prints_cons, (prints_cons _ (Print rule)). simpl.
    induction (Sql.joined st) as [| [[t n] c] rows IH]; [ reflexivity | exact IH ].
  - rewrite prints_cons, (prints_cons _ (Print rule)). simpl.
    induction (Sql.joined st) as [| [[t n] c] rows IH]; [ reflexivity | exact IH ].
Qed.

(** The report of a statement is one of the success messages, and not the
    message of a cancellation. *)
Lemma effect_message st msg st' :
  effect st msg st' -> success_message msg = true /\ cancel_message msg = false.
Proof. intros H. destruct H; split; reflexivity. Qed.

(** A run that accounts: what follows for the store, the trace and the
    way it ends. *)
Lemma accounts_facts st ins r :
  accounts st ins r ->
  (db r <> st ->
     (forall e, ctl r <> Raise e)
     /\ exists trace msg,
          out r = trace ++ [Print msg] /\ success_message msg = true
          /\ prints success_message trace = false)
  /\ (prints success_message (out r) = false -> db r = st)
  /\ (prints cancel_message (out r) = true -> db r = st)
  /\ (forall e, ctl r = Raise e -> db r = st)
  /\ (db r = st \/ exists msg, effect st msg (db r)).
Proof.
  intros [_ [(Hdb & Hs & He) | (msg & trace & Heff & Hout & H1 & H2 & H3)]].
  - repeat split; auto; try contradiction.
  - destruct (effect_message st msg (db r) Heff) as [Hm Hc].
    assert (Hprints : prints success_message (out r) = true).
    { rewrite Hout, prints_app. unfold prints at 2. simpl. rewrite Hm.
      apply orb_true_r. }
    assert (Hcancel : prints cancel_message (out r) = false).
    { rewrite Hout, prints_app, H2. unfold prints. simpl. rewrite Hc.
      reflexivity. }
    assert (Hctl : forall e, ctl r <> Raise e)
      by (intros e He; destruct H3 as [H3 | H3]; rewrite H3 in He; discriminate).
    split; [ | split; [ | split; [ | split ] ] ].
    + intros _. split; [ exact Hctl | ]. exists trace, msg. auto.
    + intros H. rewrite H in Hprints. discriminate.
    + intros H. rewrite H in Hcancel. discriminate.
    + intros e He. destruct (Hctl e He).
    + right. exists msg. exact Heff.
Qed.

(** * Beyond the claims: properties of the workflows *)

(** X1.  In add, update and delete alike, a change of the store is always
    reported: when the store a workflow leaves differs from the one it
    found, the run did not end in an exception and the last thing printed
    is a success message, the only one of the run.  And when no success
    message was printed the store is as it was found. *)
Theorem every_change_is_reported :
  forall (workflow : M unit),
    In workflow [add_book_or_author; update_book; delete_book_or_author] ->
    forall st ins,
      (db (workflow st ins) <> st ->
         (forall e, ctl (workflow st ins) <> Raise e)
         /\ exists trace msg,
              out (workflow st ins) = trace ++ [Print msg]
              /\ success_message msg = true
              /\ prints success_message trace = false)
      /\ (prints success_message (out (workflow st ins)) = false ->
          db (workflow st ins) = st).
Proof.
  intros workflow Hw st ins.
  assert (H : accounts st ins (workflow st ins)).
  { destruct Hw as [<- | [<- | [<- | []]]].
    - apply accounts_add_book_or_author.
    - apply accounts_update_book.
    - apply accounts_delete_book_or_author. }
  destruct (accounts_facts st ins _ H) as (H1 & H2 & _). split; assumption.
Qed.

Lemma every_change_is_reported_witness :
  In update_book [add_book_or_author; update_book; delete_book_or_author]
  /\ forall st ins,
       prints success_message (out (update_book st ins)) = false ->
       db (update_book st ins) = st.
Proof.
  assert (Hw : In update_book
                  [add_book_or_author; update_book; delete_book_or_author])
    by (right; left; reflexivity).
  split; [ exact Hw | ].
  intros st ins. apply (every_change_is_reported update_book Hw st ins).
Defined.

(** X2.  Cancellation never writes: in add, update and delete alike, a run
    in which [Operation cancelled.] was printed leaves the store as it
    found it. *)
Theorem cancellation_never_writes :
  forall st ins,
    (prints cancel_message (out (add_book_or_author st ins)) = true ->
     db (add_book_or_author st ins) = st)
    /\ (prints cancel_message (out (update_book st ins)) = true ->
        db (update_book st ins) = st)
    /\ (prints cancel_message (out (delete_book_or_author st ins)) = true ->
        db (delete_book_or_author st ins) = st).
Proof.
  intros st ins. split; [ | split ].
  - apply (accounts_facts st ins _ (accounts_add_book_or_author st ins)).
  - apply (accounts_facts st ins _ (accounts_update_book st ins)).
  - apply (accounts_facts st ins _ (accounts_delete_book_or_author st ins)).
Qed.


(** A workflow leaves the store as it was or executes one statement with
    its checks. *)
Lemma workflow_step_effect st st' :
  workflow_step st st' -> st' = st \/ exists msg, effect st msg st'.
Proof.
  intros [st0 ins | st0 ins | st0 ins].
  - apply (accounts_facts st0 ins _ (accounts_add_book_or_author st0 ins)).
  - apply (accounts_facts st0 ins _ (accounts_update_book st0 ins)).
  - apply (accounts_facts st0 ins _ (accounts_delete_book_or_author st0 ins)).
Qed.

Lemma reachable_by_effects (P : store -> Prop) :
  (forall st msg st', effect st msg st' -> P st -> P st') ->
  forall st st', reachable st st' -> P st -> P st'.
Proof.
  intros HP st st' Hreach Hst.
  induction Hreach as [| st' st'' _ IH Hstep]; [ exact Hst | ].
  destruct (workflow_step_effect st' st'' Hstep) as [-> | [msg Heff]];
    [ exact IH | apply (HP st' msg st'' Heff IH) ].
Qed.

Lemma fetchone_in (A : Type) (p : A -> bool) (t : list A) x :
  Sql.fetchone (filter p t) = Some x -> In x t /\ p x = true.
Proof.
  intros H. apply filter_In. destruct (filter p t) as [| y l]; [ discriminate | ].
  injection H as ->. left. reflexivity.
Qed.

Lemma effect_quantities_valid st msg st' :
  effect st msg st' -> quantities_valid st -> quantities_valid st'.
Proof.
  unfold quantities_valid. intros Heff Hq. rewrite Forall_forall in Hq.
  destruct Heff; simpl; try (rewrite Forall_forall; exact Hq);
    rewrite Forall_forall; intros x Hx;
    try (apply in_updated in Hx; destruct Hx as (y & Hy & [-> | ->]);
         simpl; auto; apply (Hq y Hy));
    try (apply filter_In in Hx; apply Hq, Hx).
  match goal with H : Sql.insert _ _ _ = Some _ |- _ =>
    apply insert_some in H; destruct H as [-> _] end.
  apply in_put_row in Hx. destruct Hx as [-> | Hx]; auto.
Qed.

Lemma effect_texts_present st msg st' :
  effect st msg st' -> texts_present st -> texts_present st'.
Proof.
  unfold texts_present. intros Heff [Hb Ha].
  rewrite Forall_forall in Hb, Ha.
  destruct Heff; simpl; rewrite !Forall_forall;
    (split; [ intros x Hx | intros x Hx ]); auto;
    try (match goal with H : Sql.insert _ _ _ = Some _ |- _ =>
           apply insert_some in H; destruct H as [-> _] end;
         apply in_put_row in Hx; destruct Hx as [-> | Hx]; auto; fail);
    try (apply in_updated in Hx; destruct Hx as (y & Hy & [-> | ->]);
         simpl; auto; apply (Hb y Hy));
    try (apply filter_In in Hx; (apply Hb, Hx || apply Ha, Hx)).
  apply in_map_iff in Hx. destruct Hx as (y & <- & Hy).
  destruct (a_id y =? k)%Z; [ simpl | apply (Ha y Hy) ].
  match goal with H : Sql.fetchone _ = Some _ |- _ =>
    apply fetchone_in in H; destruct H as [Hcur _] end.
  destruct (Ha current Hcur) as [Hn Hc].
  split.
  - match goal with H : new_name = _ \/ _ |- _ =>
      destruct H as [-> | H]; assumption end.
  - match goal with H : new_country = _ \/ _ |- _ =>
      destruct H as [-> | H]; assumption end.
Qed.


(** The menu loop keeps what every statement keeps. *)
Lemma main_menu_loop_effects (P : store -> Prop) :
  (forall st msg st', effect st msg st' -> P st -> P st') ->
  forall fuel st ins,
    (List.length ins < fuel)%nat -> P st ->
    exists r, main_menu_loop fuel st ins = Some r /\ P (db r).
Proof.
  intros HP. induction fuel as [| fuel IH]; intros st ins Hlen Hst; [ lia | ].
  destruct ins as [| line rest]; simpl.
  - eexists. split; [ reflexivity | exact Hst ].
  - destruct (menu_action (strip line)) as [workflow |] eqn:Haction.
    + assert (Hstep : db (workflow st rest) = st
                      \/ exists msg, effect st msg (db (workflow st rest))).
      { unfold menu_action in Haction.
        repeat match type of Haction with
               | (if ?c then _ else _) = _ => destruct c
               end; try discriminate; injection Haction as <-.
        - apply (accounts_facts st rest _ (accounts_add_book_or_author st rest)).
        - apply (accounts_facts st rest _ (accounts_update_book st rest)).
        - apply (accounts_facts st rest _
                   (accounts_delete_book_or_author st rest)).
        - left. apply asks_search_books.
        - left. apply asks_view_all_books. }
      apply menu_action_writes in Haction.
      destruct (writes_call workflow Haction st rest) as [_ Hpending].
      assert (Hdb : db (call workflow st rest) = db (workflow st rest))
        by (unfold call; destruct (ctl (workflow st rest)); reflexivity).
      assert (HP' : P (db (call workflow st rest))).
      { rewrite Hdb. destruct Hstep as [-> | [msg Heff]];
          [ exact Hst | apply (HP st msg _ Heff Hst) ]. }
      destruct (ctl (call workflow st rest)) eqn:Hctl;
        try (destruct (IH (db (call workflow st rest))
                          (pending (call workflow st rest)))
               as (r & -> & Hr); [ simpl in Hlen; lia | assumption | ];
             eexists; split; [ reflexivity | exact Hr ]).
      eexists. split; [ reflexivity | exact HP' ].
    + destruct (PyStr.eqb (strip line) (str "0")).
      * eexists. split; [ reflexivity | exact Hst ].
      * destruct (IH st rest) as (r & -> & Hr);
          [ simpl in Hlen; lia | assumption | ].
        eexists. split; [ reflexivity | exact Hr ].
Qed.

(** X4.  No workflow stores a quantity that is negative or that an
    INTEGER column cannot hold: from a store whose quantities all lie
    between 0 and 2^63-1, every sequence of add, update and delete
    workflows and every session of the menu leaves such a store. *)
Theorem quantities_stay_valid (st : store) (H : quantities_valid st) :
  (forall st', reachable st st' -> quantities_valid st')
  /\ (forall ins,
        exists r, main_menu st ins = Some r /\ quantities_valid (db r)).
Proof.
  split.
  - intros st' Hreach.
    apply (reachable_by_effects quantities_valid effect_quantities_valid
             st st' Hreach H).
  - intros ins.
    apply (main_menu_loop_effects quantities_valid effect_quantities_valid);
      [ lia | exact H ].
Qed.

Lemma quantities_stay_valid_witness :
  quantities_valid seeded
  /\ ((forall st', reachable seeded st' -> quantities_valid st')
      /\ (forall ins,
            exists r,
              main_menu seeded ins = Some r /\ quantities_valid (db r))).
Proof.
  assert (H : quantities_valid seeded)
    by (repeat constructor; simpl; unfold Sql.max_integer; lia).
  split; [ exact H | apply (quantities_stay_valid seeded H) ].
Defined.

(** X5.  No workflow stores an empty text where the program asks for one:
    from a store in which no book title is empty or the cancellation
    token and no author name or country is empty, every sequence of add,
    update and delete workflows and every session of the menu leaves such
    a store.  In update-book's author sub-choice a blank line keeps the
    current value, so it never empties a field. *)
Theorem texts_stay_present (st : store) (H : texts_present st) :
  (forall st', reachable st st' -> texts_present st')
  /\ (forall ins,
        exists r, main_menu st ins = Some r /\ texts_present (db r)).
Proof.
  split.
  - intros st' Hreach.
    apply (reachable_by_effects texts_present effect_texts_present
             st st' Hreach H).
  - intros ins.
    apply (main_menu_loop_effects texts_present effect_texts_present);
      [ lia | exact H ].
Qed.

Lemma texts_stay_present_witness :
  texts_present seeded
  /\ ((forall st', reachable seeded st' -> texts_present st')
      /\ (forall ins,
            exists r, main_menu seeded ins = Some r /\ texts_present (db r))).
Proof.
  assert (H : texts_present seeded).
  { split; repeat constructor; simpl; try discriminate; reflexivity. }
  split; [ exact H | apply (texts_stay_present seeded H) ].
Defined.

(** ** The cancellation token *)

Lemma lower_char_x c :
  N.eqb (lower_char c) 120 = true <-> c = 120%N \/ c = 88%N.
Proof.
  unfold lower_char, between.
  destruct (N.leb 65 c && N.leb c 90)%bool eqn:E1;
    [ | destruct (N.leb 192 c && N.leb c 222 && negb (N.eqb c 215))%bool eqn:E2 ];
    bool_to_prop; lia.
Qed.

(** X6.  [cancel_operation] holds of exactly two strings, [x] and [X]:
    no padded, longer or accented input cancels. *)
Theorem cancel_operation_token :
  forall s, cancel_operation s = true <-> s = str "x" \/ s = str "X".
Proof.
  intros s. unfold cancel_operation, lower.
  change (str "x") with [120%N]. change (str "X") with [88%N].
  destruct s as [| c [| d s]]; simpl.
  - split; [ discriminate | intros [H | H]; discriminate ].
  - change (PyStr.eqb [lower_char c] [120%N])
      with (N.eqb (lower_char c) 120 && true)%bool.
    rewrite andb_true_r, lower_char_x.
    split; [ intros [-> | ->]; auto | intros [[= ->] | [= ->]]; auto ].
  - change (PyStr.eqb (lower_char c :: lower_char d :: map lower_char s)
                      [120%N])
      with (N.eqb (lower_char c) 120 && false)%bool.
    rewrite andb_false_r.
    split; [ discriminate | intros [H | H]; discriminate ].
Qed.

(** ** An accepted line at each prompt *)


Lemma new_author_id_accepts st line rest k :
  four_digit_id (strip line) = IdValue k -> author_exists st k = false ->
  new_author_id st (line :: rest)
  = emit (Prompt "Enter new 4-digit author ID or 'x' to cancel: ")
         (ret k st rest).
Proof.
  intros Hid Hnew. destruct (four_digit_id_not_cancel _ _ Hid) as [Hc _].
  unfold cancel_operation in Hc. unfold author_exists in Hnew.
  simpl. rewrite Hc, Hid, Hnew. reflexivity.
Qed.


Lemma new_book_id_accepts st line rest k :
  four_digit_id (strip line) = IdValue k ->
  Sql.fetchone (Sql.book_by_id st k) = None ->
  new_book_id st (line :: rest)
  = emit (Prompt "Enter 4-digit book ID or 'x' to cancel: ") (ret k st rest).
Proof.
  intros Hid Hnew. destruct (four_digit_id_not_cancel _ _ Hid) as [Hc _].
  simpl. rewrite Hc, Hid, Hnew. reflexivity.
Qed.



Lemma existing_author_id_refuses st line rest a :
  four_digit_id (strip line) = IdValue a -> author_exists st a = false ->
  existing_author_id st (line :: rest)
  = emit (Prompt "Enter 4-digit author ID or 'x' to cancel: ")
         (say "No author found with that ID. Please enter a valid author ID.\n"
              (existing_author_id st rest)).
Proof.
  intros Hid Hnew. destruct (four_digit_id_not_cancel _ _ Hid) as [Hc _].
  unfold author_exists in Hnew. simpl. rewrite Hc, Hid, Hnew. reflexivity.
Qed.



Lemma book_to_delete_accepts st line rest k b :
  four_digit_id (strip line) = IdValue k ->
  Sql.fetchone (Sql.book_by_id st k) = Some b ->
  book_to_delete st (line :: rest)
  = emit (Prompt "Enter the 4-digit ID of the book to delete (or 'x' to cancel): ")
         (ret (k, b) st rest).
Proof.
  intros Hid Hb. destruct (four_digit_id_not_cancel _ _ Hid) as [Hc He].
  simpl. rewrite Hc, He, Hid, Hb. reflexivity.
Qed.

Lemma author_to_delete_accepts st line rest k a :
  four_digit_id (strip line) = IdValue k ->
  Sql.fetchone (Sql.author_by_id st k) = Some a ->
  author_to_delete st (line :: rest)
  = emit (Prompt "Enter the 4-digit ID of the author to delete (or 'x' to cancel): ")
         (ret (k, a) st rest).
Proof.
  intros Hid Ha. destruct (four_digit_id_not_cancel _ _ Hid) as [Hc He].
  simpl. rewrite Hc, He, Hid, Ha. reflexivity.
Qed.

(** ** Rows after an INSERT or a DELETE *)


Lemma filter_put_row_other (A : Type) (key : A -> Z) (p : A -> bool) r t :
  p r = false -> filter p (Sql.put_row key r t) = filter p t.
Proof.
  intros Hr. induction t as [| x t IH]; simpl.
  - rewrite Hr. reflexivity.
  - destruct (key r <? key x)%Z; simpl; rewrite ?Hr, ?IH; reflexivity.
Qed.

Lemma filter_out_key (A : Type) (key : A -> Z) k t :
  filter (fun x => (key x =? k)%Z)
         (filter (fun x => negb (key x =? k)%Z) t) = [].
Proof.
  induction t as [| x t IH]; [ reflexivity | ]. simpl.
  destruct (key x =? k)%Z eqn:E; simpl; [ exact IH | ].
  rewrite E. exact IH.
Qed.

(** * Beyond the claims: what is written can be read back *)

(** ** Running a block line by line *)

Lemma bind_yields (A : Type) (m : M A) (k : A -> M unit) st ins e a rest :
  m st ins = emit e (ret a st rest) ->
  bind m k st ins = emit e (k a st rest).
Proof. intros H. unfold bind. rewrite H. reflexivity. Qed.










Lemma search_by_id_missing st id_line rest k :
  four_digit_id (strip id_line) = IdValue k ->
  Sql.fetchone (Sql.book_by_id st k) = None ->
  search_books st (str "id" :: id_line :: rest)
  = emit (Prompt "Search by ID or title? (type 'id' or 'title', or 'x' to cancel): ")
      (emit (Prompt "Enter the 4-digit book ID (or 'x' to cancel): ")
         (say "No book found with that ID.\n" (search_books st rest))).
Proof.
  intros Hid Hb. destruct (four_digit_id_not_cancel _ _ Hid) as [Hc He].
  change (search_books st (str "id" :: id_line :: rest))
    with (emit (Prompt "Search by ID or title? (type 'id' or 'title', or 'x' to cancel): ")
            (emit (Prompt "Enter the 4-digit book ID (or 'x' to cancel): ")
               (if cancel_operation (strip id_line) then cancelled unit st rest
                else if is_empty (strip id_line)
                then say "Book ID is required.\n" (search_books st rest)
                else
                  match four_digit_id (strip id_line) with
                  | IdRejected =>
                    say "Book ID must be a 4-digit number.\n"
                        (search_books st rest)
                  | IdValueError => raise unit ValueError st rest
                  | IdValue book_id =>
                    match Sql.fetchone (Sql.book_by_id st book_id) with
                    | Some book =>
                      (show (PrintBook "Book found:" book) ;; stop unit) st rest
                    | None =>
                      say "No book found with that ID.\n" (search_books st rest)
                    end
                  end))).
  rewrite Hc, He, Hid, Hb. reflexivity.
Qed.

Lemma confirm_delete_book_answers book_id st line rest :
  (lower (strip line) = str "yes" ->
   confirm_delete_book book_id st (line :: rest)
   = mkResult Return (Sql.delete_book book_id st)
       [Prompt "Delete this book? (yes/no): ";
        Print "Book deleted successfully.\n"] rest)
  /\ (lower (strip line) = str "no" ->
      confirm_delete_book book_id st (line :: rest)
      = mkResult Return st
          [Prompt "Delete this book? (yes/no): ";
           Print "Deletion cancelled.\n"] rest).
Proof. split; intros H; simpl; rewrite H; reflexivity. Qed.

Lemma confirm_delete_author_answers author_id st line rest :
  (lower (strip line) = str "yes" ->
   confirm_delete_author author_id st (line :: rest)
   = mkResult Return (Sql.delete_author author_id st)
       [Prompt "Delete this author? (yes/no): ";
        Print "Author deleted successfully.\n"] rest)
  /\ (lower (strip line) = str "no" ->
      confirm_delete_author author_id st (line :: rest)
      = mkResult Return st
          [Prompt "Delete this author? (yes/no): ";
           Print "Deletion cancelled.\n"] rest).
Proof. split; intros H; simpl; rewrite H; reflexivity. Qed.

(** X9.  Delete-book and lookup.  For a line accepted as the id of a book
    of the store: the answer [yes], in any case, deletes the rows with
    that id and nothing else, after which a lookup and search-by-id find
    no book under it; the answer [no] leaves the store as it was. *)
Theorem delete_book_then_gone (st : store) (id_line : pystr) (k : Z)
  (b : Book)
  (Hid : four_digit_id (strip id_line) = IdValue k)
  (Hb : Sql.fetchone (Sql.book_by_id st k) = Some b) :
  (forall confirm rest,
      lower (strip confirm) = str "yes" ->
      delete_book_or_author st (str "book" :: id_line :: confirm :: rest)
      = mkResult Return (Sql.delete_book k st)
          [Prompt "What would you like to delete? ('Book' or 'Author' or 'x' to cancel): ";
           Prompt "Enter the 4-digit ID of the book to delete (or 'x' to cancel): ";
           PrintBook "Book selected:" b;
           Prompt "Delete this book? (yes/no): ";
           Print "Book deleted successfully.\n"]
          rest)
  /\ (forall confirm rest,
        lower (strip confirm) = str "no" ->
        delete_book_or_author st (str "book" :: id_line :: confirm :: rest)
        = mkResult Return st
            [Prompt "What would you like to delete? ('Book' or 'Author' or 'x' to cancel): ";
             Prompt "Enter the 4-digit ID of the book to delete (or 'x' to cancel): ";
             PrintBook "Book selected:" b;
             Prompt "Delete this book? (yes/no): ";
             Print "Deletion cancelled.\n"]
            rest)
  /\ Sql.book_by_id (Sql.delete_book k st) k = []
  /\ author (Sql.delete_book k st) = author st
  /\ (forall x, In x (book (Sql.delete_book k st))
                <-> In x (book st) /\ b_id x <> k)
  /\ (forall rest,
        search_books (Sql.delete_book k st) (str "id" :: id_line :: rest)
        = emit (Prompt "Search by ID or title? (type 'id' or 'title', or 'x' to cancel): ")
            (emit (Prompt "Enter the 4-digit book ID (or 'x' to cancel): ")
               (say "No book found with that ID.\n"
                    (search_books (Sql.delete_book k st) rest)))).
Proof.
  assert (Hgone : Sql.book_by_id (Sql.delete_book k st) k = [])
    by apply (filter_out_key Book b_id k (book st)).
  assert (Hstart : forall confirm rest,
            delete_book_or_author st (str "book" :: id_line :: confirm :: rest)
            = emit (Prompt "What would you like to delete? ('Book' or 'Author' or 'x' to cancel): ")
                (emit (Prompt "Enter the 4-digit ID of the book to delete (or 'x' to cancel): ")
                   (emit (PrintBook "Book selected:" b)
                      (confirm_delete_book k st (confirm :: rest))))).
  { intros confirm rest.
    change (delete_book_or_author st (str "book" :: id_line :: confirm :: rest))
      with (emit (Prompt "What would you like to delete? ('Book' or 'Author' or 'x' to cancel): ")
              (delete_book st (id_line :: confirm :: rest))).
    unfold delete_book.
    rewrite (bind_yields _ _ _ _ _ _ _ _
               (book_to_delete_accepts st _ _ k b Hid Hb)).
    reflexivity. }
  split; [ | split; [ | split; [ exact Hgone | split; [ reflexivity | split ] ] ] ].
  - intros confirm rest H. rewrite Hstart.
    rewrite (proj1 (confirm_delete_book_answers k st confirm rest) H).
    reflexivity.
  - intros confirm rest H. rewrite Hstart.
    rewrite (proj2 (confirm_delete_book_answers k st confirm rest) H).
    reflexivity.
  - intros x. simpl. rewrite filter_In, negb_true_iff, Z.eqb_neq. tauto.
  - intros rest. apply (search_by_id_missing _ _ _ k Hid).
    rewrite Hgone. reflexivity.
Qed.

Lemma delete_book_then_gone_witness :
  four_digit_id (strip (str "3001")) = IdValue 3001
  /\ Sql.fetchone (Sql.book_by_id seeded 3001)
     = Some (mkBook 3001 (str "A Tale of Two Cities") 1290 30)
  /\ map b_id
       (book (db (delete_book_or_author seeded
                    [str "book"; str "3001"; str " YES "])))
     = [3002; 3003; 3004; 3005]%Z.
Proof.
  split; [ reflexivity | split; [ reflexivity | ] ].
  destruct (delete_book_then_gone seeded (str "3001") 3001
              (mkBook 3001 (str "A Tale of Two Cities") 1290 30)
              eq_refl eq_refl) as (Hyes & _).
  rewrite (Hyes (str " YES ") [] eq_refl). reflexivity.
Defined.

(** X10.  Delete-author when no book names the author.  For a line
    accepted as the id of such an author: the answer [yes] deletes the
    author rows with that id and nothing else, after which the integrity
    guard no longer finds the author; the answer [no] leaves the store as
    it was. *)
Theorem delete_author_then_gone (st : store) (id_line : pystr) (k : Z)
  (a : Author)
  (Hid : four_digit_id (strip id_line) = IdValue k)
  (Ha : Sql.fetchone (Sql.author_by_id st k) = Some a)
  (Hfree : Sql.books_by_author st k = []) :
  (forall confirm rest,
      lower (strip confirm) = str "yes" ->
      delete_book_or_author st (str "author" :: id_line :: confirm :: rest)
      = mkResult Return (Sql.delete_author k st)
          [Prompt "What would you like to delete? ('Book' or 'Author' or 'x' to cancel): ";
           Prompt "Enter the 4-digit ID of the author to delete (or 'x' to cancel): ";
           PrintAuthor "Author selected:" a;
           Prompt "Delete this author? (yes/no): ";
           Print "Author deleted successfully.\n"]
          rest)
  /\ (forall confirm rest,
        lower (strip confirm) = str "no" ->
        delete_book_or_author st (str "author" :: id_line :: confirm :: rest)
        = mkResult Return st
            [Prompt "What would you like to delete? ('Book' or 'Author' or 'x' to cancel): ";
             Prompt "Enter the 4-digit ID of the author to delete (or 'x' to cancel): ";
             PrintAuthor "Author selected:" a;
             Prompt "Delete this author? (yes/no): ";
             Print "Deletion cancelled.\n"]
            rest)
  /\ author_exists (Sql.delete_author k st) k = false
  /\ book (Sql.delete_author k st) = book st
  /\ (forall x, In x (author (Sql.delete_author k st))
                <-> In x (author st) /\ a_id x <> k).
Proof.
  assert (Hgone : Sql.author_by_id (Sql.delete_author k st) k = [])
    by apply (filter_out_key Author a_id k (author st)).
  assert (Hstart : forall confirm rest,
            delete_book_or_author st (str "author" :: id_line :: confirm :: rest)
            = emit (Prompt "What would you like to delete? ('Book' or 'Author' or 'x' to cancel): ")
                ((call delete_author ;; stop unit) st
                   (id_line :: confirm :: rest)))
    by reflexivity.
  assert (Hrun : forall confirm rest,
            delete_author st (id_line :: confirm :: rest)
            = emit (Prompt "Enter the 4-digit ID of the author to delete (or 'x' to cancel): ")
                (emit (PrintAuthor "Author selected:" a)
                   (confirm_delete_author k st (confirm :: rest)))).
  { intros confirm rest. unfold delete_author.
    rewrite (bind_yields _ _ _ _ _ _ _ _
               (author_to_delete_accepts st _ _ k a Hid Ha)).
    cbv zeta. simpl fst. rewrite Hfree. reflexivity. }
  split; [ | split; [ | split; [ | split; [ reflexivity | ] ] ] ].
  - intros confirm rest H. rewrite Hstart. unfold bind, call.
    rewrite Hrun, (proj1 (confirm_delete_author_answers k st confirm rest) H).
    reflexivity.
  - intros confirm rest H. rewrite Hstart. unfold bind, call.
    rewrite Hrun, (proj2 (confirm_delete_author_answers k st confirm rest) H).
    reflexivity.
  - unfold author_exists. rewrite Hgone. reflexivity.
  - intros x. simpl. rewrite filter_In, negb_true_iff, Z.eqb_neq. tauto.
Qed.

Lemma delete_author_then_gone_witness :
  four_digit_id (strip (str "1290")) = IdValue 1290
  /\ Sql.fetchone (Sql.author_by_id (Sql.delete_book 3001 seeded) 1290)
     = Some (mkAuthor 1290 (str "Charles Dickens") (str "England"))
  /\ Sql.books_by_author (Sql.delete_book 3001 seeded) 1290 = []
  /\ map a_id
       (author (db (delete_book_or_author (Sql.delete_book 3001 seeded)
                      [str "author"; str "1290"; str "yes"])))
     = [2356; 5620; 6380; 8937]%Z.
Proof.
  split; [ reflexivity | split; [ reflexivity | split; [ reflexivity | ] ] ].
  destruct (delete_author_then_gone (Sql.delete_book 3001 seeded)
              (str "1290") 1290
              (mkAuthor 1290 (str "Charles Dickens") (str "England"))
              eq_refl eq_refl eq_refl) as (Hyes & _).
  rewrite (Hyes (str "yes") [] eq_refl). reflexivity.
Defined.

(** ** update_book *)


Lemma updated_other_rows (f : Book -> Book) k t i x :
  nth_error t i = Some x -> b_id x <> k ->
  nth_error (map (fun b => if (b_id b =? k)%Z then f b else b) t) i = Some x.
Proof.
  intros Hx Hne. rewrite nth_error_map, Hx. simpl.
  destruct (Z.eqb_spec (b_id x) k); [ contradiction | reflexivity ].
Qed.

(** What the three loops over a field of the book leave. *)
Lemma update_qty_db k st ins :
  db (update_qty k st ins) = st
  \/ exists q, db (update_qty k st ins) = Sql.set_qty q k st.
Proof.
  induction ins as [| line rest IH]; [ left; reflexivity | ].
  simpl. unfold emit, say. simpl. branch; auto.
  unfold update_qty_statement, bind. branch; eauto.
Qed.

Lemma update_title_db k st ins :
  db (update_title k st ins) = st
  \/ exists t, db (update_title k st ins) = Sql.set_title t k st.
Proof.
  induction ins as [| line rest IH]; [ left; reflexivity | ].
  simpl. unfold emit, say. simpl. branch; eauto.
Qed.

Lemma update_authorid_db k st ins :
  db (update_authorid k st ins) = st
  \/ exists a, db (update_authorid k st ins) = Sql.set_authorID a k st.
Proof.
  induction ins as [| line rest IH]; [ left; reflexivity | ].
  simpl. unfold emit, say. simpl. branch; eauto.
Qed.

Lemma db_emit (A : Type) e (r : result A) : db (emit e r) = db r.
Proof. reflexivity. Qed.

Lemma db_say (A : Type) text (r : result A) : db (say text r) = db r.
Proof. reflexivity. Qed.

Lemma update_field_db k b st ins :
  db (update_field k b st ins) = st
  \/ (exists q, db (update_field k b st ins) = Sql.set_qty q k st)
  \/ (exists t, db (update_field k b st ins) = Sql.set_title t k st)
  \/ (exists a, db (update_field k b st ins) = Sql.set_authorID a k st)
  \/ (exists n c,
        db (update_field k b st ins) = Sql.set_author n c (b_authorID b) st).
Proof.
  induction ins as [| line rest IH]; [ left; reflexivity | ].
  simpl. rewrite ?db_emit.
  destruct (cancel_operation _); [ left; reflexivity | ].
  destruct (PyStr.eqb _ (str "qty"));
    [ destruct (update_qty_db k st rest) as [-> | [q ->]]; eauto | ].
  destruct (PyStr.eqb _ (str "title"));
    [ destruct (update_title_db k st rest) as [-> | [t ->]]; eauto 6 | ].
  destruct (PyStr.eqb _ (str "authorid"));
    [ destruct (update_authorid_db k st rest) as [-> | [a ->]]; eauto 7 | ].
  destruct (PyStr.eqb _ (str "author")); [ | rewrite ?db_say; exact IH ].
  destruct (Sql.fetchone _) as [current |]; [ | rewrite ?db_say; exact IH ].
  destruct (update_author_details_db b current st rest) as [-> | (n & c & ->)];
    eauto 8.
Qed.

(** X11.  Update-book never adds, removes or renumbers a row: after any
    run the ids of both tables are as before, in order, and at most one
    table has changed.  When the selection loop yielded a book, every book
    row with another id and every author row whose id is not that book's
    [authorID] is as before, at its place; when it yielded none, the store
    is as before. *)
Theorem update_book_frame :
  forall st ins,
    map b_id (book (db (update_book st ins))) = map b_id (book st)
    /\ map a_id (author (db (update_book st ins))) = map a_id (author st)
    /\ (book (db (update_book st ins)) = book st
        \/ author (db (update_book st ins)) = author st)
    /\ (forall selected,
          ctl (book_to_update st ins) = Next selected ->
          (forall i x,
              nth_error (book st) i = Some x -> b_id x <> fst selected ->
              nth_error (book (db (update_book st ins))) i = Some x)
          /\ (forall i x,
                nth_error (author st) i = Some x ->
                a_id x <> b_authorID (snd selected) ->
                nth_error (author (db (update_book st ins))) i = Some x))
    /\ ((forall selected, ctl (book_to_update st ins) <> Next selected) ->
        db (update_book st ins) = st).
Proof.
  intros st ins.
  destruct (reads_book_to_update st ins) as (Hdb & _ & _).
  assert (Hcases :
    (exists selected,
        ctl (book_to_update st ins) = Next selected
        /\ exists rest,
             db (update_book st ins)
             = db (update_field (fst selected) (snd selected) st rest))
    \/ ((forall selected, ctl (book_to_update st ins) <> Next selected)
        /\ db (update_book st ins) = st)).
  { unfold update_book, bind.
    destruct (ctl (book_to_update st ins)) as [selected | | e] eqn:E.
    - left. exists selected. split; [ reflexivity | ].
      rewrite Hdb. unfold show. simpl. eauto.
    - right. split; [ intros s H; discriminate H | exact Hdb ].
    - right. split; [ intros s H; discriminate H | exact Hdb ]. }
  destruct Hcases as [(selected & Hsel & rest & Hrun) | [Hnone Hsame]].
  - rewrite Hrun.
    assert (Hfacts :
      map b_id (book (db (update_field (fst selected) (snd selected) st rest)))
      = map b_id (book st)
      /\ map a_id
           (author (db (update_field (fst selected) (snd selected) st rest)))
         = map a_id (author st)
      /\ (book (db (update_field (fst selected) (snd selected) st rest))
          = book st
          \/ author (db (update_field (fst selected) (snd selected) st rest))
             = author st)
      /\ (forall i x,
            nth_error (book st) i = Some x -> b_id x <> fst selected ->
            nth_error
              (book (db (update_field (fst selected) (snd selected) st rest)))
              i = Some x)
      /\ (forall i x,
            nth_error (author st) i = Some x ->
            a_id x <> b_authorID (snd selected) ->
            nth_error
              (author (db (update_field (fst selected) (snd selected) st rest)))
              i = Some x)).
    { destruct (update_field_db (fst selected) (snd selected) st rest)
        as [-> | [[q ->] | [[t ->] | [[a ->] | (n & c & ->)]]]]; simpl.
      - repeat split; auto.
      - split; [ apply map_b_id_update; reflexivity | ].
        repeat split; auto. intros i x. apply updated_other_rows.
      - split; [ apply map_b_id_update; reflexivity | ].
        repeat split; auto. intros i x. apply updated_other_rows.
      - split; [ apply map_b_id_update; reflexivity | ].
        repeat split; auto. intros i x. apply updated_other_rows.
      - split; [ reflexivity | ].
        split; [ apply map_a_id_set_author | ].
        repeat split; auto. intros i x. apply set_author_other_rows. }
    destruct Hfacts as (H1 & H2 & H3 & H4 & H5).
    split; [ exact H1 | split; [ exact H2 | split; [ exact H3 | split ] ] ].
    + intros s Hs. rewrite Hsel in Hs. injection Hs as <-.
      split; [ exact H4 | exact H5 ].
    + intros Hnone. destruct (Hnone selected Hsel).
  - rewrite Hsame.
    split; [ reflexivity
           | split; [ reflexivity | split; [ left; reflexivity | split ] ] ].
    + intros s Hs. destruct (Hnone s Hs).
    + intros _. reflexivity.
Qed.










(** ** view_all_books *)

Lemma filter_unique (A : Type) (key : A -> Z) (t : list A) a :
  NoDup (map key t) -> In a t ->
  filter (fun x => (key x =? key a)%Z) t = [a].
Proof.
  induction t as [| x t IH]; intros Hnd Hin; [ destruct Hin | ].
  simpl in Hnd. inversion Hnd as [| k l Hnotin Hnd' E]. subst k l. simpl.
  destruct Hin as [-> | Hin].
  - rewrite Z.eqb_refl. f_equal.
    destruct (filter (fun x => (key x =? key a)%Z) t) as [| y l] eqn:E;
      [ reflexivity | exfalso ].
    assert (Hy : In y (filter (fun x => (key x =? key a)%Z) t))
      by (rewrite E; left; reflexivity).
    apply filter_In in Hy. destruct Hy as [Hy Hk]. apply Z.eqb_eq in Hk.
    apply Hnotin. rewrite <- Hk. apply in_map, Hy.
  - destruct (Z.eqb_spec (key x) (key a)) as [E | E]; [ exfalso | auto ].
    apply Hnotin. rewrite E. apply in_map, Hin.
Qed.

Lemma joined_rows st :
  primary_keys st ->
  forall books,
    (forall b, In b books -> author_exists st (b_authorID b) = true) ->
    Forall2 (fun b row =>
               exists a, In a (author st) /\ a_id a = b_authorID b
                         /\ row = details b a)
            books
            (flat_map (fun b =>
               map (fun a => (b_title b, a_name a, a_country a))
                   (Sql.author_by_id st (b_authorID b))) books).
Proof.
  intros [_ Hnd] books. induction books as [| b books IH]; intros Href.
  - constructor.
  - assert (Hb := Href b (or_introl eq_refl)).
    apply author_exists_iff, in_map_iff in Hb. destruct Hb as (a & Ha & Hin).
    simpl. unfold Sql.author_by_id at 1. rewrite <- Ha.
    rewrite (filter_unique Author a_id (author st) a Hnd Hin). simpl.
    constructor.
    + exists a. rewrite Ha. auto.
    + apply IH. intros b' Hb'. apply Href. right. exact Hb'.
Qed.

Lemma joined_skips st books :
  flat_map (fun b =>
     map (fun a => (b_title b, a_name a, a_country a))
         (Sql.author_by_id st (b_authorID b))) books
  = flat_map (fun b =>
       map (fun a => (b_title b, a_name a, a_country a))
           (Sql.author_by_id st (b_authorID b)))
      (filter (fun b => author_exists st (b_authorID b)) books).
Proof.
  induction books as [| b books IH]; [ reflexivity | ]. simpl.
  destruct (author_exists st (b_authorID b)) eqn:E; simpl.
  - rewrite IH. reflexivity.
  - rewrite (author_absent st _ E). simpl. exact IH.
Qed.

(** X14.  View-all-books.  In a store that keeps the referential invariant
    and the primary key, the report shows every book exactly once, in the
    order of the book table, each with the name and the country of its
    author.  In any store, a book whose [authorID] no author has is left
    out of the report without a message, and the report neither reads a
    line nor changes the store. *)
Theorem view_all_books_rows (st : store)
  (Href : referential st) (Hkeys : primary_keys st) :
  Forall2 (fun b row =>
             exists a, In a (author st) /\ a_id a = b_authorID b
                       /\ row = details b a)
          (book st) (Sql.joined st)
  /\ List.length (Sql.joined st) = List.length (book st)
  /\ (forall st',
        Sql.joined st'
        = Sql.joined
            (mkStore
               (filter (fun b => author_exists st' (b_authorID b)) (book st'))
               (author st')))
  /\ (forall st' ins,
        view_all_books st' ins
        = mkResult (Next tt) st'
            (Print "\nDetails" :: Print rule
               :: flat_map (fun row =>
                    [PrintDetails (fst (fst row)) (snd (fst row)) (snd row);
                     Print rule]) (Sql.joined st'))
            ins).
Proof.
  assert (H : Forall2 (fun b row =>
                exists a, In a (author st) /\ a_id a = b_authorID b
                          /\ row = details b a)
              (book st) (Sql.joined st))
    by (apply (joined_rows st Hkeys (book st)), Href).
  split; [ exact H | split; [ | split ] ].
  - symmetry. apply (Forall2_length H).
  - intros st'. unfold Sql.joined. simpl.
    apply (joined_skips st' (book st')).
  - intros st' ins. unfold view_all_books. f_equal. f_equal. f_equal.
    apply flat_map_ext. intros [[t n] c]. reflexivity.
Qed.

Lemma view_all_books_rows_witness :
  referential seeded /\ primary_keys seeded
  /\ Forall2 (fun b row =>
                exists a, In a (author seeded) /\ a_id a = b_authorID b
                          /\ row = details b a)
             (book seeded) (Sql.joined seeded)
  /\ List.length (Sql.joined seeded) = List.length (book seeded).
Proof.
  assert (Href : referential seeded).
  { intros b Hb. simpl in Hb.
    repeat (destruct Hb as [<- | Hb]; [ reflexivity | ]). destruct Hb. }
  split; [ exact Href | split; [ apply seeded_primary_keys | ] ].
  destruct (view_all_books_rows seeded Href seeded_primary_keys)
    as (Hrows & Hlength & _).
  split; [ exact Hrows | exact Hlength ].
Defined.

(** ** main_menu *)

Lemma eqb_eq a b : PyStr.eqb a b = true <-> a = b.
Proof.
  revert b. induction a as [| x a IH]; intros [| y b];
    unfold PyStr.eqb; fold PyStr.eqb; try (split; discriminate);
    [ split; reflexivity | ].
  rewrite andb_true_iff, N.eqb_eq, IH.
  split; [ intros [-> ->]; reflexivity | intros [= -> ->]; auto ].
Qed.

(** Any count of iterations above the number of pending lines gives the
    same run. *)
Lemma main_menu_loop_fuel fuel1 :
  forall fuel2 st ins,
    (List.length ins < fuel1)%nat -> (List.length ins < fuel2)%nat ->
    main_menu_loop fuel1 st ins = main_menu_loop fuel2 st ins.
Proof.
  induction fuel1 as [| fuel1 IH]; intros fuel2 st ins H1 H2; [ lia | ].
  destruct fuel2 as [| fuel2]; [ lia | ].
  destruct ins as [| line rest]; [ reflexivity | ]. simpl in H1, H2.
  cbn [main_menu_loop].
  destruct (menu_action (strip line)) as [workflow |] eqn:Haction.
  - apply menu_action_writes in Haction.
    destruct (writes_call workflow Haction st rest) as [_ Hpending].
    destruct (ctl (call workflow st rest)); try reflexivity;
      f_equal; apply IH; lia.
  - destruct (PyStr.eqb (strip line) (str "0")); [ reflexivity | ].
    f_equal. apply IH; lia.
Qed.

Lemma main_menu_loop_step fuel st line rest :
  main_menu_loop (S fuel) st (line :: rest)
  = match menu_action (strip line) with
    | Some workflow =>
      match ctl (call workflow st rest) with
      | Raise e => Some (emit (Prompt menu_text) (call workflow st rest))
      | _ =>
        option_map (after (Prompt menu_text :: out (call workflow st rest)))
                   (main_menu_loop fuel (db (call workflow st rest))
                                   (pending (call workflow st rest)))
      end
    | None =>
      if PyStr.eqb (strip line) (str "0")
      then Some (emit (Prompt menu_text) (print "Goodbye!!!" st rest))
      else option_map (after [Prompt menu_text; Print "Invalid option."])
                      (main_menu_loop fuel st rest)
    end.
Proof. reflexivity. Qed.

(** X15.  A session is the sequence of its workflows.  On a menu line that
    selects a workflow, the menu runs it on the lines that follow and,
    unless it ended in an exception, goes on with the store it left and
    the lines it did not read; an exception ends the session there.  The
    line [0] ends the session with the store as it is and the following
    lines unread; any other line is answered [Invalid option.] and the
    menu goes on with the store unchanged; with no line left the session
    ends in [EOFError].  The menu line is stripped but its case is not
    folded. *)
Theorem main_menu_session :
  forall st line rest,
    main_menu st []
    = Some (mkResult (Raise EOFError) st [Prompt menu_text] [])
    /\ (forall workflow,
          menu_action (strip line) = Some workflow ->
          main_menu st (line :: rest)
          = match ctl (workflow st rest) with
            | Raise e =>
              Some (mkResult (Raise e) (db (workflow st rest))
                      (Prompt menu_text :: out (workflow st rest))
                      (pending (workflow st rest)))
            | _ =>
              option_map
                (after (Prompt menu_text :: out (workflow st rest)))
                (main_menu (db (workflow st rest))
                           (pending (workflow st rest)))
            end)
    /\ (strip line = str "0" ->
        main_menu st (line :: rest)
        = Some (mkResult (Next tt) st
                  [Prompt menu_text; Print "Goodbye!!!"] rest))
    /\ (menu_action (strip line) = None -> strip line <> str "0" ->
        main_menu st (line :: rest)
        = option_map (after [Prompt menu_text; Print "Invalid option."])
                     (main_menu st rest))
    /\ (menu_action (str "1") = Some add_book_or_author
        /\ menu_action (str "2") = Some update_book
        /\ menu_action (str "3") = Some delete_book_or_author
        /\ menu_action (str "4") = Some search_books
        /\ menu_action (str "5") = Some view_all_books).
Proof.
  intros st line rest.
  split; [ reflexivity | split; [ | split; [ | split ] ] ].
  - intros workflow Haction. unfold main_menu at 1.
    cbn [List.length]. rewrite main_menu_loop_step, Haction.
    apply menu_action_writes in Haction.
    destruct (writes_call workflow Haction st rest) as [_ Hpending].
    assert (Hcall : call workflow st rest
                    = match ctl (workflow st rest) with
                      | Raise e => workflow st rest
                      | _ => mkResult (Next tt) (db (workflow st rest))
                               (out (workflow st rest))
                               (pending (workflow st rest))
                      end) by reflexivity.
    assert (Hsame : db (call workflow st rest) = db (workflow st rest)
                    /\ out (call workflow st rest) = out (workflow st rest)
                    /\ pending (call workflow st rest)
                       = pending (workflow st rest))
      by (rewrite Hcall; destruct (ctl (workflow st rest)); auto).
    destruct Hsame as (Hdb & Hout & Hpend).
    assert (Hloop : main_menu_loop (S (List.length rest))
                      (db (workflow st rest)) (pending (workflow st rest))
                    = main_menu (db (workflow st rest))
                                (pending (workflow st rest))).
    { unfold main_menu. apply main_menu_loop_fuel; rewrite <- Hpend; lia. }
    destruct (ctl (workflow st rest)) as [[] | | e] eqn:E.
    + rewrite Hcall. cbn [ctl db out pending]. rewrite Hloop. reflexivity.
    + rewrite Hcall. cbn [ctl db out pending]. rewrite Hloop. reflexivity.
    + rewrite Hcall, E. unfold emit.
      destruct (workflow st rest) as [c d o p]. simpl in E. subst c.
      reflexivity.
  - intros Hzero. unfold main_menu. cbn [List.length].
    rewrite main_menu_loop_step, Hzero. reflexivity.
  - intros Haction Hnot. unfold main_menu at 1.
    cbn [List.length]. rewrite main_menu_loop_step, Haction.
    destruct (PyStr.eqb (strip line) (str "0")) eqn:E;
      [ apply eqb_eq in E; contradiction | ].
    reflexivity.
  - repeat split; reflexivity.
Qed.

(** ** Every identifier can be typed *)

Lemma spell_digit d :
  (0 <= d <= 9)%Z ->
  ascii_digit (Z.to_N (48 + d)) = true
  /\ (Z.of_N (Z.to_N (48 + d)) - 48 = d)%Z.
Proof.
  intros Hd. split.
  - unfold ascii_digit, between. bool_to_prop. lia.
  - rewrite Z2N.id; lia.
Qed.

Lemma spell_four_digits n :
  id_range n -> four_ascii_digits (spell n) = true /\ decimal (spell n) = n.
Proof.
  unfold id_range. intros Hn.
  assert (H3 : (0 <= n / 1000 mod 10 <= 9)%Z)
    by (pose proof (Z.mod_pos_bound (n / 1000) 10); lia).
  assert (H2 : (0 <= n / 100 mod 10 <= 9)%Z)
    by (pose proof (Z.mod_pos_bound (n / 100) 10); lia).
  assert (H1 : (0 <= n / 10 mod 10 <= 9)%Z)
    by (pose proof (Z.mod_pos_bound (n / 10) 10); lia).
  assert (H0 : (0 <= n mod 10 <= 9)%Z)
    by (pose proof (Z.mod_pos_bound n 10); lia).
  destruct (spell_digit _ H3) as [A3 V3]. destruct (spell_digit _ H2) as [A2 V2].
  destruct (spell_digit _ H1) as [A1 V1]. destruct (spell_digit _ H0) as [A0 V0].
  split.
  - unfold four_ascii_digits, spell. simpl forallb.
    rewrite A3, A2, A1, A0. reflexivity.
  - unfold decimal, spell. simpl fold_left. rewrite V3, V2, V1, V0.
    Z.div_mod_to_equations. lia.
Qed.

Lemma spell_accepted n :
  id_range n -> four_digit_id (strip (spell n)) = IdValue n.
Proof.
  intros Hn. destruct (spell_four_digits n Hn) as [Hfour Hval].
  assert (Hstrip : strip (spell n) = spell n).
  { pose proof Hfour as H. unfold four_ascii_digits, spell in H. simpl in H.
    bool_to_prop. destruct H as (Ha & _ & _ & Hd & _).
    apply strip_four_digits; apply ascii_digit_isdigit; assumption. }
  rewrite Hstrip, (four_ascii_digits_accepted _ Hfour), Hval. reflexivity.
Qed.

(** X16.  Every identifier from 0 to 9999 can be typed: written as four
    decimal digits with zeros in front, it passes the test of the
    identifier prompts with its own value, so the add workflows accept it
    for a new author or a new book whenever the table does not hold it. *)
Theorem every_id_can_be_typed (n : Z) (H : id_range n) :
  four_digit_id (strip (spell n)) = IdValue n
  /\ (forall st rest,
        author_exists st n = false ->
        new_author_id st (spell n :: rest)
        = emit (Prompt "Enter new 4-digit author ID or 'x' to cancel: ")
               (ret n st rest))
  /\ (forall st rest,
        Sql.fetchone (Sql.book_by_id st n) = None ->
        new_book_id st (spell n :: rest)
        = emit (Prompt "Enter 4-digit book ID or 'x' to cancel: ")
               (ret n st rest)).
Proof.
  pose proof (spell_accepted n H) as Hid.
  split; [ exact Hid | split ]; intros st rest Hnew.
  - apply new_author_id_accepts; assumption.
  - apply new_book_id_accepts; assumption.
Qed.

Lemma every_id_can_be_typed_witness :
  id_range 7
  /\ spell 7 = str "0007"
  /\ four_digit_id (strip (spell 7)) = IdValue 7%Z
  /\ new_book_id seeded [spell 7]
     = mkResult (Next 7%Z) seeded
         [Prompt "Enter 4-digit book ID or 'x' to cancel: "] [].
Proof.
  assert (H : id_range 7) by (unfold id_range; lia).
  destruct (every_id_can_be_typed 7 H) as (Hid & _ & Hbook).
  split; [ exact H | split; [ reflexivity | split; [ exact Hid | ] ] ].
  rewrite (Hbook seeded [] eq_refl). reflexivity.
Defined.

(** ** Searching changes nothing *)

(** X17.  Search never writes.  Whatever is typed, search-books leaves
    the store as it was, reports no success and hands back lines that were
    given to it, also when it asks again or an exception ends it. *)
Theorem search_books_never_writes :
  forall st ins,
    db (search_books st ins) = st
    /\ prints success_message (out (search_books st ins)) = false
    /\ incl (pending (search_books st ins)) ins.
Proof.
  intros st ins.
  destruct (asks_search_books st ins) as (Hdb & Hincl & Hout & _ & _).
  split; [ exact Hdb | split; [ exact Hout | exact Hincl ] ].
Qed.

(** ** A query of wildcards *)







(** ** The first run *)




(** ** A quantity beyond an INTEGER *)


